(** * ShaderCrashingAssert.h: the host-side provisioner and the HLSL macro pair

    A shallow embedding of [ShaderCrashingAssertContext::Init],
    [ShaderCrashingAssertContext::GetUAVCPUDescriptorHandle] and of the macro
    [SHADER_CRASHING_ASSERT], followed by the properties of the
    specification that were checked against them.

    The Direct3D 12 device is not part of the library: it is a value of type
    [ID3D12Device] whose creation methods answer with an [HRESULT] and the
    interface pointer they stored through [IID_PPV_ARGS].  Every call that
    [Init] issues is recorded, in order, in the outcome of the run. *)

From Stdlib Require Import ZArith List String Bool Lia.
Import ListNotations.
Local Open Scope Z_scope.

(** ** Declarations of <d3d12.h> used by the header *)

(** An [HRESULT] is a signed 32-bit integer; nothing below depends on the
    bound, and the properties are stated for every integer. *)
Definition HRESULT := Z.
Definition S_OK : HRESULT := 0.
Definition E_OUTOFMEMORY : HRESULT := -2147024882. (* 0x8007000E *)
Definition E_INVALIDARG : HRESULT := -2147024809.  (* 0x80070057 *)
Definition DXGI_ERROR_DEVICE_REMOVED : HRESULT := -2005270523. (* 0x887A0005 *)

(** [SUCCEEDED(hr)] is [hr >= 0], [FAILED(hr)] is [hr < 0]. *)
Definition SUCCEEDED (hr : HRESULT) : bool := 0 <=? hr.
Definition FAILED (hr : HRESULT) : bool := hr <? 0.

Definition sizeof_DWORD : Z := 4.

Definition D3D12_HEAP_TYPE_DEFAULT : Z := 1.
Definition D3D12_HEAP_FLAG_ALLOW_ONLY_BUFFERS : Z := 192. (* 0xC0 *)
Definition D3D12_RESOURCE_DIMENSION_BUFFER : Z := 1.
Definition D3D12_TEXTURE_LAYOUT_ROW_MAJOR : Z := 1.
Definition D3D12_RESOURCE_FLAG_ALLOW_UNORDERED_ACCESS : Z := 8.
Definition D3D12_RESOURCE_STATE_COMMON : Z := 0.
Definition D3D12_DESCRIPTOR_HEAP_TYPE_CBV_SRV_UAV : Z := 0.
Definition DXGI_FORMAT_R32_TYPELESS : Z := 39.
Definition D3D12_UAV_DIMENSION_BUFFER : Z := 1.
Definition D3D12_BUFFER_UAV_FLAG_RAW : Z := 1.

(** The structures, with the members of the SDK; [= {}] sets all of them to
    zero before the code assigns some. *)
Record D3D12_HEAP_DESC := {
  SizeInBytes : Z;
  Properties_Type : Z;
  Properties_CPUPageProperty : Z;
  Properties_MemoryPoolPreference : Z;
  Properties_CreationNodeMask : Z;
  Properties_VisibleNodeMask : Z;
  heap_Alignment : Z;
  heap_Flags : Z
}.

Record D3D12_RESOURCE_DESC := {
  Dimension : Z;
  res_Alignment : Z;
  Width : Z;
  Height : Z;
  DepthOrArraySize : Z;
  MipLevels : Z;
  res_Format : Z;
  SampleDesc_Count : Z;
  SampleDesc_Quality : Z;
  Layout : Z;
  res_Flags : Z
}.

Record D3D12_DESCRIPTOR_HEAP_DESC := {
  dh_Type : Z;
  NumDescriptors : Z;
  dh_Flags : Z;
  NodeMask : Z
}.

Record D3D12_UNORDERED_ACCESS_VIEW_DESC := {
  uav_Format : Z;
  ViewDimension : Z;
  Buffer_FirstElement : Z;
  Buffer_NumElements : Z;
  Buffer_StructureByteStride : Z;
  Buffer_CounterOffsetInBytes : Z;
  Buffer_Flags : Z
}.

Record D3D12_CLEAR_VALUE := { cv_Format : Z }.

Record D3D12_CPU_DESCRIPTOR_HANDLE := { ptr : Z }.

(** COM objects are known by their address.  A descriptor heap also answers
    [GetCPUDescriptorHandleForHeapStart]. *)
Inductive ID3D12Heap := HeapAt (addr : N).
Inductive ID3D12Resource := ResourceAt (addr : N).
Record ID3D12DescriptorHeap := {
  dh_addr : N;
  HeapStart : D3D12_CPU_DESCRIPTOR_HANDLE
}.

Definition nullptr {A : Type} : option A := None.

Definition nonnull {A : Type} (p : option A) : bool :=
  match p with Some _ => true | None => false end.

(** The device.  Each creation method answers with its [HRESULT] and with the
    pointer it stored in the output argument. *)
Record ID3D12Device := {
  CreateHeap : D3D12_HEAP_DESC -> HRESULT * option ID3D12Heap;
  CreatePlacedResource :
    option ID3D12Heap -> Z -> D3D12_RESOURCE_DESC -> Z ->
    option D3D12_CLEAR_VALUE -> HRESULT * option ID3D12Resource;
  CreateDescriptorHeap :
    D3D12_DESCRIPTOR_HEAP_DESC -> HRESULT * option ID3D12DescriptorHeap
}.

(** ** The calls a run issues *)

Inductive Object :=
| ObjHeap (h : ID3D12Heap)
| ObjResource (r : ID3D12Resource)
| ObjDescriptorHeap (d : ID3D12DescriptorHeap).

Inductive Call :=
| CallCreateHeap (pDesc : D3D12_HEAP_DESC)
    (hr : HRESULT) (ppvHeap : option ID3D12Heap)
| CallCreatePlacedResource (pHeap : option ID3D12Heap) (HeapOffset : Z)
    (pDesc : D3D12_RESOURCE_DESC) (InitialState : Z)
    (pOptimizedClearValue : option D3D12_CLEAR_VALUE)
    (hr : HRESULT) (ppvResource : option ID3D12Resource)
| CallCreateDescriptorHeap (pDesc : D3D12_DESCRIPTOR_HEAP_DESC)
    (hr : HRESULT) (ppvHeap : option ID3D12DescriptorHeap)
| CallCreateUnorderedAccessView (pResource pCounterResource : option ID3D12Resource)
    (pDesc : D3D12_UNORDERED_ACCESS_VIEW_DESC)
    (DestDescriptor : D3D12_CPU_DESCRIPTOR_HANDLE)
| CallGetCPUDescriptorHandleForHeapStart (d : ID3D12DescriptorHeap)
| CallSetName (o : Object) (Name : string)
| CallRelease (o : Object).

(** A run either returns, or invokes a method through a null pointer and
    stops there; both carry the calls issued so far. *)
Inductive Outcome (A : Type) : Type :=
| Returned (a : A) (calls : list Call)
| NullDeref (calls : list Call).
Arguments Returned {A} a calls.
Arguments NullDeref {A} calls.

Definition ret {A : Type} (a : A) : Outcome A := Returned a [].

Definition bind {A B : Type} (m : Outcome A) (k : A -> Outcome B) : Outcome B :=
  match m with
  | Returned a l =>
      match k a with
      | Returned b l' => Returned b (l ++ l')
      | NullDeref l' => NullDeref (l ++ l')
      end
  | NullDeref l => NullDeref l
  end.

Declare Scope host_scope.
Delimit Scope host_scope with host.
Notation "x <- c ;; k" := (bind c (fun x => k))
  (at level 61, c at next level, right associativity) : host_scope.
Notation "' pat <- c ;; k" := (bind c (fun x => match x with pat => k end))
  (at level 61, pat pattern, c at next level, right associativity) : host_scope.
Notation "c ;; k" := (bind c (fun _ => k))
  (at level 61, right associativity) : host_scope.
Local Open Scope host_scope.

Definition issue {A : Type} (c : Call) (a : A) : Outcome A := Returned a [c].

(** [p->m(...)]: the method runs on the object [p] points to. *)
Definition through {A B : Type} (p : option A) (m : A -> Outcome B) : Outcome B :=
  match p with
  | Some o => m o
  | None => NullDeref []
  end.

Definition Device_CreateHeap (dev : ID3D12Device) (pDesc : D3D12_HEAP_DESC)
  : Outcome (HRESULT * option ID3D12Heap) :=
  let r := CreateHeap dev pDesc in
  issue (CallCreateHeap pDesc (fst r) (snd r)) r.

Definition Device_CreatePlacedResource (dev : ID3D12Device)
    (pHeap : option ID3D12Heap) (HeapOffset : Z) (pDesc : D3D12_RESOURCE_DESC)
    (InitialState : Z) (pOptimizedClearValue : option D3D12_CLEAR_VALUE)
  : Outcome (HRESULT * option ID3D12Resource) :=
  let r := CreatePlacedResource dev pHeap HeapOffset pDesc InitialState
             pOptimizedClearValue in
  issue (CallCreatePlacedResource pHeap HeapOffset pDesc InitialState
           pOptimizedClearValue (fst r) (snd r)) r.

Definition Device_CreateDescriptorHeap (dev : ID3D12Device)
    (pDesc : D3D12_DESCRIPTOR_HEAP_DESC)
  : Outcome (HRESULT * option ID3D12DescriptorHeap) :=
  let r := CreateDescriptorHeap dev pDesc in
  issue (CallCreateDescriptorHeap pDesc (fst r) (snd r)) r.

(** [CreateUnorderedAccessView] returns [void]. *)
Definition Device_CreateUnorderedAccessView (dev : ID3D12Device)
    (pResource pCounterResource : option ID3D12Resource)
    (pDesc : D3D12_UNORDERED_ACCESS_VIEW_DESC)
    (DestDescriptor : D3D12_CPU_DESCRIPTOR_HANDLE) : Outcome unit :=
  issue (CallCreateUnorderedAccessView pResource pCounterResource pDesc
           DestDescriptor) tt.

Definition Heap_SetName (p : option ID3D12Heap) (Name : string) : Outcome unit :=
  through p (fun h => issue (CallSetName (ObjHeap h) Name) tt).

Definition Resource_SetName (p : option ID3D12Resource) (Name : string)
  : Outcome unit :=
  through p (fun r => issue (CallSetName (ObjResource r) Name) tt).

Definition DescriptorHeap_SetName (p : option ID3D12DescriptorHeap)
    (Name : string) : Outcome unit :=
  through p (fun d => issue (CallSetName (ObjDescriptorHeap d) Name) tt).

Definition GetCPUDescriptorHandleForHeapStart (p : option ID3D12DescriptorHeap)
  : Outcome D3D12_CPU_DESCRIPTOR_HANDLE :=
  through p (fun d =>
    issue (CallGetCPUDescriptorHandleForHeapStart d) (HeapStart d)).

Definition Heap_Release (p : option ID3D12Heap) : Outcome unit :=
  through p (fun h => issue (CallRelease (ObjHeap h)) tt).

Definition Resource_Release (p : option ID3D12Resource) : Outcome unit :=
  through p (fun r => issue (CallRelease (ObjResource r)) tt).

(** ** C++ section of the header *)

(** [pDesc] and [pDesc->pDevice] are dereferenced without a test (line 69):
    the caller passes a description that holds a device. *)
Record SHADER_CRASHING_ASSERT_CONTEXT_DESC := { pDevice : ID3D12Device }.

Record ShaderCrashingAssertContext := {
  m_pDescriptorHeap : option ID3D12DescriptorHeap
}.

(** [ID3D12DescriptorHeap* m_pDescriptorHeap = nullptr;] *)
Definition new_context : ShaderCrashingAssertContext :=
  {| m_pDescriptorHeap := nullptr |}.

Definition size : Z := 32.

Definition heapDesc : D3D12_HEAP_DESC :=
  {| SizeInBytes := size;
     Properties_Type := D3D12_HEAP_TYPE_DEFAULT;
     Properties_CPUPageProperty := 0;
     Properties_MemoryPoolPreference := 0;
     Properties_CreationNodeMask := 0;
     Properties_VisibleNodeMask := 0;
     heap_Alignment := 0;
     heap_Flags := D3D12_HEAP_FLAG_ALLOW_ONLY_BUFFERS |}.

Definition resDesc : D3D12_RESOURCE_DESC :=
  {| Dimension := D3D12_RESOURCE_DIMENSION_BUFFER;
     res_Alignment := 0;
     Width := size;
     Height := 1;
     DepthOrArraySize := 1;
     MipLevels := 1;
     res_Format := 0;
     SampleDesc_Count := 1;
     SampleDesc_Quality := 0;
     Layout := D3D12_TEXTURE_LAYOUT_ROW_MAJOR;
     res_Flags := D3D12_RESOURCE_FLAG_ALLOW_UNORDERED_ACCESS |}.

Definition descHeapDesc : D3D12_DESCRIPTOR_HEAP_DESC :=
  {| dh_Type := D3D12_DESCRIPTOR_HEAP_TYPE_CBV_SRV_UAV;
     NumDescriptors := 1;
     dh_Flags := 0;
     NodeMask := 0 |}.

Definition uavDesc : D3D12_UNORDERED_ACCESS_VIEW_DESC :=
  {| uav_Format := DXGI_FORMAT_R32_TYPELESS;
     ViewDimension := D3D12_UAV_DIMENSION_BUFFER;
     Buffer_FirstElement := 0;
     Buffer_NumElements := size / sizeof_DWORD;
     Buffer_StructureByteStride := 0;
     Buffer_CounterOffsetInBytes := 0;
     Buffer_Flags := D3D12_BUFFER_UAV_FLAG_RAW |}.

(** [HRESULT Init(const SHADER_CRASHING_ASSERT_CONTEXT_DESC* pDesc)].  The
    result is the returned [HRESULT] with the context as the call leaves it. *)
Definition Init (this : ShaderCrashingAssertContext)
    (pDesc : SHADER_CRASHING_ASSERT_CONTEXT_DESC)
  : Outcome (HRESULT * ShaderCrashingAssertContext) :=
  let hr := S_OK in
  (* Create heap *)
  let heap : option ID3D12Heap := nullptr in
  '(hr, heap) <- Device_CreateHeap (pDevice pDesc) heapDesc ;;
  (if SUCCEEDED hr
   then Heap_SetName heap "ShaderCrashingAssert Heap"
   else ret tt) ;;
  (* Create buffer *)
  let buf : option ID3D12Resource := nullptr in
  '(hr, buf) <-
    (if SUCCEEDED hr
     then Device_CreatePlacedResource (pDevice pDesc) heap 0 resDesc
            D3D12_RESOURCE_STATE_COMMON nullptr
     else ret (hr, buf)) ;;
  (if SUCCEEDED hr
   then Resource_SetName buf "ShaderCrashingAssert Buffer"
   else ret tt) ;;
  (* Create descriptor heap *)
  '(hr, this) <-
    (if SUCCEEDED hr
     then '(hr, p) <- Device_CreateDescriptorHeap (pDevice pDesc) descHeapDesc ;;
          ret (hr, {| m_pDescriptorHeap := p |})
     else ret (hr, this)) ;;
  (if SUCCEEDED hr
   then DescriptorHeap_SetName (m_pDescriptorHeap this)
          "ShaderCrashingAssert Descriptor Heap"
   else ret tt) ;;
  (* Setup the descriptor *)
  (if SUCCEEDED hr
   then dest <- GetCPUDescriptorHandleForHeapStart (m_pDescriptorHeap this) ;;
        Device_CreateUnorderedAccessView (pDevice pDesc) buf nullptr uavDesc dest
   else ret tt) ;;
  (* Release buffer and heap *)
  (if nonnull buf then Resource_Release buf else ret tt) ;;
  (if nonnull heap then Heap_Release heap else ret tt) ;;
  ret (hr, this).

(** [D3D12_CPU_DESCRIPTOR_HANDLE GetUAVCPUDescriptorHandle()] *)
Definition GetUAVCPUDescriptorHandle (this : ShaderCrashingAssertContext)
  : Outcome D3D12_CPU_DESCRIPTOR_HANDLE :=
  GetCPUDescriptorHandleForHeapStart (m_pDescriptorHeap this).

(** ** Reading a run *)

(** The four creation steps of [Init]. *)
Inductive Step :=
| HeapCreation
| BufferCreation
| DescriptorHeapCreation
| ViewCreation.

(** The step a call belongs to, with the status the device answered
    ([CreateUnorderedAccessView] answers none). *)
Definition step_of (c : Call) : option (Step * option HRESULT) :=
  match c with
  | CallCreateHeap _ hr _ => Some (HeapCreation, Some hr)
  | CallCreatePlacedResource _ _ _ _ _ hr _ => Some (BufferCreation, Some hr)
  | CallCreateDescriptorHeap _ hr _ => Some (DescriptorHeapCreation, Some hr)
  | CallCreateUnorderedAccessView _ _ _ _ => Some (ViewCreation, None)
  | _ => None
  end.

(** The creation steps attempted, in order. *)
Fixpoint attempted (calls : list Call) : list Step :=
  match calls with
  | [] => []
  | c :: rest =>
      match step_of c with
      | Some (s, _) => s :: attempted rest
      | None => attempted rest
      end
  end.

(** The first creation step that answered a failure code, that code, and the
    calls issued after it. *)
Fixpoint first_failure (calls : list Call) : option (Step * HRESULT * list Call) :=
  match calls with
  | [] => None
  | c :: rest =>
      match step_of c with
      | Some (s, Some hr) =>
          if FAILED hr then Some (s, hr, rest) else first_failure rest
      | _ => first_failure rest
      end
  end.

(** The object a call created: a success code together with a pointer. *)
Definition created_by (c : Call) : option Object :=
  match c with
  | CallCreateHeap _ hr (Some h) =>
      if SUCCEEDED hr then Some (ObjHeap h) else None
  | CallCreatePlacedResource _ _ _ _ _ hr (Some r) =>
      if SUCCEEDED hr then Some (ObjResource r) else None
  | CallCreateDescriptorHeap _ hr (Some d) =>
      if SUCCEEDED hr then Some (ObjDescriptorHeap d) else None
  | _ => None
  end.

Definition created (calls : list Call) : list Object :=
  flat_map (fun c => match created_by c with Some o => [o] | None => [] end) calls.

(** The pointers the creation calls stored, null ones left out, whatever the
    status that came with them. *)
Definition stored_by (c : Call) : option Object :=
  match c with
  | CallCreateHeap _ _ (Some h) => Some (ObjHeap h)
  | CallCreatePlacedResource _ _ _ _ _ _ (Some r) => Some (ObjResource r)
  | CallCreateDescriptorHeap _ _ (Some d) => Some (ObjDescriptorHeap d)
  | _ => None
  end.

Definition stored (calls : list Call) : list Object :=
  flat_map (fun c => match stored_by c with Some o => [o] | None => [] end) calls.

Definition released (calls : list Call) : list Object :=
  flat_map (fun c => match c with CallRelease o => [o] | _ => [] end) calls.

Definition named (calls : list Call) : list Object :=
  flat_map (fun c => match c with CallSetName o _ => [o] | _ => [] end) calls.

Definition is_transient (o : Object) : bool :=
  match o with
  | ObjHeap _ | ObjResource _ => true
  | ObjDescriptorHeap _ => false
  end.

Definition Object_eq_dec (a b : Object) : {a = b} + {a <> b}.
Proof.
  repeat decide equality.
Defined.

Definition handle_eqb (a b : D3D12_CPU_DESCRIPTOR_HANDLE) : bool :=
  ptr a =? ptr b.

Definition resource_eqb (a b : ID3D12Resource) : bool :=
  match a, b with ResourceAt x, ResourceAt y => N.eqb x y end.

(** The view a descriptor slot holds after the calls: the last one written
    there, with the resource it is a view of. *)
Fixpoint view_at (calls : list Call) (slot : D3D12_CPU_DESCRIPTOR_HANDLE)
  : option (option ID3D12Resource * D3D12_UNORDERED_ACCESS_VIEW_DESC) :=
  match calls with
  | [] => None
  | c :: rest =>
      match view_at rest slot with
      | Some v => Some v
      | None =>
          match c with
          | CallCreateUnorderedAccessView r _ d dest =>
              if handle_eqb dest slot then Some (r, d) else None
          | _ => None
          end
      end
  end.

(** The description a resource was placed with. *)
Fixpoint placed (calls : list Call) (r : ID3D12Resource)
  : option D3D12_RESOURCE_DESC :=
  match calls with
  | [] => None
  | CallCreatePlacedResource _ _ d _ _ hr (Some r') :: rest =>
      if SUCCEEDED hr && resource_eqb r' r then Some d else placed rest r
  | _ :: rest => placed rest r
  end.

(** A flag is set in a mask. *)
Definition has_flag (mask flag : Z) : bool := Z.land mask flag =? flag.

(** ** What the code expects of the device

    The convention of COM output arguments: with a success code comes an
    object, with a failure code a null pointer. *)
Definition object_on_success {A : Type} (r : HRESULT * option A) : Prop :=
  SUCCEEDED (fst r) = true -> snd r <> nullptr.

Definition null_on_failure {A : Type} (r : HRESULT * option A) : Prop :=
  SUCCEEDED (fst r) = false -> snd r = nullptr.

Definition returns_objects (dev : ID3D12Device) : Prop :=
  (forall d, object_on_success (CreateHeap dev d))
  /\ (forall h o d s c, object_on_success (CreatePlacedResource dev h o d s c))
  /\ (forall d, object_on_success (CreateDescriptorHeap dev d)).

Definition nulls_on_failure (dev : ID3D12Device) : Prop :=
  (forall d, null_on_failure (CreateHeap dev d))
  /\ (forall h o d s c, null_on_failure (CreatePlacedResource dev h o d s c))
  /\ (forall d, null_on_failure (CreateDescriptorHeap dev d)).

Definition com_conformant (dev : ID3D12Device) : Prop :=
  returns_objects dev /\ nulls_on_failure dev.

(** Devices that answer the same whatever they are asked, for concrete runs. *)
Definition scripted (heap : HRESULT * option ID3D12Heap)
    (buf : HRESULT * option ID3D12Resource)
    (dh : HRESULT * option ID3D12DescriptorHeap) : ID3D12Device :=
  {| CreateHeap := fun _ => heap;
     CreatePlacedResource := fun _ _ _ _ _ => buf;
     CreateDescriptorHeap := fun _ => dh |}.

Definition heap1 : ID3D12Heap := HeapAt 4096.
Definition buf1 : ID3D12Resource := ResourceAt 8192.
Definition dheap1 : ID3D12DescriptorHeap :=
  {| dh_addr := 12288; HeapStart := {| ptr := 65536 |} |}.
Definition dheap0 : ID3D12DescriptorHeap :=
  {| dh_addr := 20480; HeapStart := {| ptr := 131072 |} |}.

Definition working_device : ID3D12Device :=
  scripted (S_OK, Some heap1) (S_OK, Some buf1) (S_OK, Some dheap1).

Definition device_without_memory (e : HRESULT) : ID3D12Device :=
  scripted (e, nullptr) (S_OK, Some buf1) (S_OK, Some dheap1).

Definition device_failing_buffer (e : HRESULT) : ID3D12Device :=
  scripted (S_OK, Some heap1) (e, nullptr) (S_OK, Some dheap1).

Definition device_failing_descriptor_heap (e : HRESULT) : ID3D12Device :=
  scripted (S_OK, Some heap1) (S_OK, Some buf1) (e, nullptr).

(** The paths through [Init], each with the calls it issues. *)
Definition release_heap (p : option ID3D12Heap) : list Call :=
  match p with Some h => [CallRelease (ObjHeap h)] | None => [] end.

Definition release_buf (p : option ID3D12Resource) : list Call :=
  match p with Some r => [CallRelease (ObjResource r)] | None => [] end.

Inductive InitRun (dev : ID3D12Device) (this : ShaderCrashingAssertContext)
  : Outcome (HRESULT * ShaderCrashingAssertContext) -> Prop :=
| Run_heap_failed hr1 p1 :
    CreateHeap dev heapDesc = (hr1, p1) ->
    SUCCEEDED hr1 = false ->
    InitRun dev this
      (Returned (hr1, this) (CallCreateHeap heapDesc hr1 p1 :: release_heap p1))
| Run_heap_null hr1 :
    CreateHeap dev heapDesc = (hr1, nullptr) ->
    SUCCEEDED hr1 = true ->
    InitRun dev this (NullDeref [CallCreateHeap heapDesc hr1 nullptr])
| Run_buffer_failed hr1 h hr2 p2 :
    CreateHeap dev heapDesc = (hr1, Some h) ->
    SUCCEEDED hr1 = true ->
    CreatePlacedResource dev (Some h) 0 resDesc D3D12_RESOURCE_STATE_COMMON
      nullptr = (hr2, p2) ->
    SUCCEEDED hr2 = false ->
    InitRun dev this
      (Returned (hr2, this)
         ([CallCreateHeap heapDesc hr1 (Some h);
           CallSetName (ObjHeap h) "ShaderCrashingAssert Heap";
           CallCreatePlacedResource (Some h) 0 resDesc
             D3D12_RESOURCE_STATE_COMMON nullptr hr2 p2]
          ++ release_buf p2 ++ [CallRelease (ObjHeap h)]))
| Run_buffer_null hr1 h hr2 :
    CreateHeap dev heapDesc = (hr1, Some h) ->
    SUCCEEDED hr1 = true ->
    CreatePlacedResource dev (Some h) 0 resDesc D3D12_RESOURCE_STATE_COMMON
      nullptr = (hr2, nullptr) ->
    SUCCEEDED hr2 = true ->
    InitRun dev this
      (NullDeref
         [CallCreateHeap heapDesc hr1 (Some h);
          CallSetName (ObjHeap h) "ShaderCrashingAssert Heap";
          CallCreatePlacedResource (Some h) 0 resDesc
            D3D12_RESOURCE_STATE_COMMON nullptr hr2 nullptr])
| Run_descriptor_heap_failed hr1 h hr2 r hr3 p3 :
    CreateHeap dev heapDesc = (hr1, Some h) ->
    SUCCEEDED hr1 = true ->
    CreatePlacedResource dev (Some h) 0 resDesc D3D12_RESOURCE_STATE_COMMON
      nullptr = (hr2, Some r) ->
    SUCCEEDED hr2 = true ->
    CreateDescriptorHeap dev descHeapDesc = (hr3, p3) ->
    SUCCEEDED hr3 = false ->
    InitRun dev this
      (Returned (hr3, {| m_pDescriptorHeap := p3 |})
         [CallCreateHeap heapDesc hr1 (Some h);
          CallSetName (ObjHeap h) "ShaderCrashingAssert Heap";
          CallCreatePlacedResource (Some h) 0 resDesc
            D3D12_RESOURCE_STATE_COMMON nullptr hr2 (Some r);
          CallSetName (ObjResource r) "ShaderCrashingAssert Buffer";
          CallCreateDescriptorHeap descHeapDesc hr3 p3;
          CallRelease (ObjResource r);
          CallRelease (ObjHeap h)])
| Run_descriptor_heap_null hr1 h hr2 r hr3 :
    CreateHeap dev heapDesc = (hr1, Some h) ->
    SUCCEEDED hr1 = true ->
    CreatePlacedResource dev (Some h) 0 resDesc D3D12_RESOURCE_STATE_COMMON
      nullptr = (hr2, Some r) ->
    SUCCEEDED hr2 = true ->
    CreateDescriptorHeap dev descHeapDesc = (hr3, nullptr) ->
    SUCCEEDED hr3 = true ->
    InitRun dev this
      (NullDeref
         [CallCreateHeap heapDesc hr1 (Some h);
          CallSetName (ObjHeap h) "ShaderCrashingAssert Heap";
          CallCreatePlacedResource (Some h) 0 resDesc
            D3D12_RESOURCE_STATE_COMMON nullptr hr2 (Some r);
          CallSetName (ObjResource r) "ShaderCrashingAssert Buffer";
          CallCreateDescriptorHeap descHeapDesc hr3 nullptr])
| Run_complete hr1 h hr2 r hr3 d :
    CreateHeap dev heapDesc = (hr1, Some h) ->
    SUCCEEDED hr1 = true ->
    CreatePlacedResource dev (Some h) 0 resDesc D3D12_RESOURCE_STATE_COMMON
      nullptr = (hr2, Some r) ->
    SUCCEEDED hr2 = true ->
    CreateDescriptorHeap dev descHeapDesc = (hr3, Some d) ->
    SUCCEEDED hr3 = true ->
    InitRun dev this
      (Returned (hr3, {| m_pDescriptorHeap := Some d |})
         [CallCreateHeap heapDesc hr1 (Some h);
          CallSetName (ObjHeap h) "ShaderCrashingAssert Heap";
          CallCreatePlacedResource (Some h) 0 resDesc
            D3D12_RESOURCE_STATE_COMMON nullptr hr2 (Some r);
          CallSetName (ObjResource r) "ShaderCrashingAssert Buffer";
          CallCreateDescriptorHeap descHeapDesc hr3 (Some d);
          CallSetName (ObjDescriptorHeap d) "ShaderCrashingAssert Descriptor Heap";
          CallGetCPUDescriptorHandleForHeapStart d;
          CallCreateUnorderedAccessView (Some r) nullptr uavDesc (HeapStart d);
          CallRelease (ObjResource r);
          CallRelease (ObjHeap h)]).

(** ** HLSL section of the header *)

(** A [RWByteAddressBuffer] is its bytes.  [Store] writes a 32-bit value in
    little-endian order at a byte address, [Load] reads one; Direct3D drops a
    store that does not lie inside the buffer and reads 0 there. *)
Definition RWByteAddressBuffer := list Z.

Definition byte_of (value : Z) (i : Z) : Z :=
  Z.land (Z.shiftr value (8 * i)) 255.

Definition bytes_of_uint (value : Z) : list Z :=
  [byte_of value 0; byte_of value 1; byte_of value 2; byte_of value 3].

Definition uint_of_bytes (bytes : list Z) : Z :=
  fold_right (fun b acc => Z.lor b (Z.shiftl acc 8)) 0 bytes.

Definition inside (address : Z) (buf : RWByteAddressBuffer) : bool :=
  (0 <=? address) && (address + 4 <=? Z.of_nat (List.length buf)).

Definition Store (address value : Z) (buf : RWByteAddressBuffer)
  : RWByteAddressBuffer :=
  if inside address buf
  then firstn (Z.to_nat address) buf ++ bytes_of_uint value
       ++ skipn (Z.to_nat address + 4) buf
  else buf.

Definition Load (address : Z) (buf : RWByteAddressBuffer) : Z :=
  if inside address buf
  then uint_of_bytes (firstn 4 (skipn (Z.to_nat address) buf))
  else 0.

(** What an execution of the construct does that can be seen from outside:
    it evaluates the expression it was given, and it stores to the resource. *)
Inductive Effect :=
| EvalExpr (value : bool)
| ResourceStore (address value : Z).

Definition stores (effects : list Effect) : list (Z * Z) :=
  flat_map (fun e => match e with
                     | ResourceStore a v => [(a, v)]
                     | EvalExpr _ => []
                     end) effects.

Definition evaluations (effects : list Effect) : list bool :=
  flat_map (fun e => match e with
                     | EvalExpr b => [b]
                     | ResourceStore _ _ => []
                     end) effects.

(** [#define SHADER_CRASHING_ASSERT_RESOURCE]: the declaration the macro
    expands to.  What the qualifier asks of the memory system is outside this
    development. *)
Record ResourceDeclaration := {
  qualifiers : list string;
  resource_type : string;
  resource_name : string
}.

Definition SHADER_CRASHING_ASSERT_RESOURCE : ResourceDeclaration :=
  {| qualifiers := ["globallycoherent"%string];
     resource_type := "RWByteAddressBuffer";
     resource_name := "ShaderCrashingAssertResource1" |}.

Section Shader.

(** The variables of the shader invocation that uses the macro. *)
Variable Locals : Type.

(** [SHADER_CRASHING_ASSERT_RESOURCE] declares
    [globallycoherent RWByteAddressBuffer ShaderCrashingAssertResource1]:
    the state of an invocation is that resource and its own variables. *)
Record ShaderState := {
  ShaderCrashingAssertResource1 : RWByteAddressBuffer;
  locals : Locals
}.

(** The expression handed to the macro: it yields a [bool] and may change
    the state on the way. *)
Definition Expr := ShaderState -> bool * ShaderState.

Definition HLSL (A : Type) := ShaderState -> A * ShaderState * list Effect.

Definition hret {A : Type} (a : A) : HLSL A := fun s => (a, s, []).

Definition hbind {A B : Type} (m : HLSL A) (k : A -> HLSL B) : HLSL B :=
  fun s =>
    let '(a, s1, t1) := m s in
    let '(b, s2, t2) := k a s1 in
    (b, s2, t1 ++ t2).

(** One occurrence of the macro argument in the expansion. *)
Definition eval (expr : Expr) : HLSL bool :=
  fun s => let '(b, s') := expr s in (b, s', [EvalExpr b]).

(** [!(e)] *)
Definition lnot (e : HLSL bool) : HLSL bool :=
  hbind e (fun b => hret (negb b)).

(** [[branch] if (c) { body }]; the attribute asks for a dynamic branch and
    changes nothing in what is computed. *)
Definition branch_if (c : HLSL bool) (body : HLSL unit) : HLSL unit :=
  hbind c (fun b => if b then body else hret tt).

(** [ShaderCrashingAssertResource1.Store(address, value)] *)
Definition ShaderCrashingAssertResource1_Store (address value : Z)
  : HLSL unit :=
  fun s =>
    (tt,
     {| ShaderCrashingAssertResource1 :=
          Store address value (ShaderCrashingAssertResource1 s);
        locals := locals s |},
     [ResourceStore address value]).

(** [do { body } while (c)]: [None] when the loop is still running after
    [fuel] rounds. *)
Fixpoint do_while (fuel : nat) (body : HLSL unit) (c : HLSL bool)
    (s : ShaderState) : option (ShaderState * list Effect) :=
  match fuel with
  | O => None
  | S fuel' =>
      let '(_, s1, t1) := body s in
      let '(again, s2, t2) := c s1 in
      if again
      then match do_while fuel' body c s2 with
           | Some (s3, t3) => Some (s3, t1 ++ t2 ++ t3)
           | None => None
           end
      else Some (s2, t1 ++ t2)
  end.

(** [#define SHADER_CRASHING_ASSERT(expr)] *)
Definition SHADER_CRASHING_ASSERT (fuel : nat) (expr : Expr)
  : ShaderState -> option (ShaderState * list Effect) :=
  do_while fuel
    (branch_if (lnot (eval expr))
       (ShaderCrashingAssertResource1_Store 0 0x23898f4a))
    (hret false).

(** An expression over the invocation's own variables. *)
Definition over_locals (e : Locals -> bool * Locals) : Expr :=
  fun s =>
    let '(b, l) := e (locals s) in
    (b, {| ShaderCrashingAssertResource1 := ShaderCrashingAssertResource1 s;
           locals := l |}).

(** A shader invocation that reaches the assertion: its condition and its
    variables. *)
Record Invocation := {
  condition : Locals -> bool * Locals;
  variables : Locals
}.

Definition fails (i : Invocation) : bool :=
  negb (fst (condition i (variables i))).

(** The invocations of a dispatch share the resource.  Each store is one
    32-bit write, so a dispatch has the effect of its invocations taken in
    some order, the order of the list. *)
Fixpoint Dispatch (fuel : nat) (invocations : list Invocation)
    (resource : RWByteAddressBuffer)
  : option (RWByteAddressBuffer * list Effect) :=
  match invocations with
  | [] => Some (resource, [])
  | i :: rest =>
      match SHADER_CRASHING_ASSERT fuel (over_locals (condition i))
              {| ShaderCrashingAssertResource1 := resource;
                 locals := variables i |} with
      | Some (s', t) =>
          match Dispatch fuel rest (ShaderCrashingAssertResource1 s') with
          | Some (r, t') => Some (r, t ++ t')
          | None => None
          end
      | None => None
      end
  end.

End Shader.

Arguments ShaderCrashingAssertResource1 {Locals} s.
Arguments locals {Locals} s.
Arguments Build_ShaderState {Locals} _ _.
Arguments SHADER_CRASHING_ASSERT {Locals} fuel expr _.
Arguments over_locals {Locals} e _.
Arguments condition {Locals} i _.
Arguments variables {Locals} i.
Arguments Build_Invocation {Locals} _ _.
Arguments fails {Locals} i.
Arguments Dispatch {Locals} fuel invocations resource.

(** An all-zero buffer of the size [Init] creates. *)
Definition zero_buffer : RWByteAddressBuffer := repeat 0 (Z.to_nat size).


(** ** Further readings of a run *)

Definition all_steps : list Step :=
  [HeapCreation; BufferCreation; DescriptorHeapCreation; ViewCreation].

(** The status answered by the last creation call that answers one. *)
Definition last_status (calls : list Call) : option HRESULT :=
  fold_left
    (fun acc c =>
       match step_of c with
       | Some (_, Some hr) => Some hr
       | _ => acc
       end)
    calls None.

(** The names given, each with the object it was given to. *)
Definition names (calls : list Call) : list (Object * string) :=
  flat_map (fun c => match c with CallSetName o n => [(o, n)] | _ => [] end)
    calls.

(** The diagnostic names of lines 73, 94 and 107. *)
Definition diagnostic_name (o : Object) : string :=
  match o with
  | ObjHeap _ => "ShaderCrashingAssert Heap"
  | ObjResource _ => "ShaderCrashingAssert Buffer"
  | ObjDescriptorHeap _ => "ShaderCrashingAssert Descriptor Heap"
  end.

(** The objects a call works on: the one it is invoked through and the ones
    it is given. *)
Definition uses (c : Call) : list Object :=
  match c with
  | CallCreateHeap _ _ _ => []
  | CallCreatePlacedResource pHeap _ _ _ _ _ _ =>
      match pHeap with Some h => [ObjHeap h] | None => [] end
  | CallCreateDescriptorHeap _ _ _ => []
  | CallCreateUnorderedAccessView pResource pCounterResource _ _ =>
      match pResource with Some r => [ObjResource r] | None => [] end
      ++ match pCounterResource with Some r => [ObjResource r] | None => [] end
  | CallGetCPUDescriptorHandleForHeapStart d => [ObjDescriptorHeap d]
  | CallSetName o _ => [o]
  | CallRelease o => [o]
  end.

Definition Object_eqb (a b : Object) : bool :=
  if Object_eq_dec a b then true else false.

(** No call works on an object that an earlier call released. *)
Fixpoint no_use_after_release (calls : list Call) : bool :=
  match calls with
  | [] => true
  | c :: rest =>
      match c with
      | CallRelease o =>
          forallb (fun c' => negb (existsb (Object_eqb o) (uses c'))) rest
      | _ => true
      end
      && no_use_after_release rest
  end.

From Stdlib Require Import Permutation.

(** The resource a dispatch ends with. *)
Definition resource_after {Locals : Type} (fuel : nat)
    (invocations : list (Invocation Locals)) (resource : RWByteAddressBuffer)
  : option RWByteAddressBuffer :=
  option_map fst (Dispatch fuel invocations resource).

(** ** Properties of the host side *)

Ltac unfold_Init :=
  unfold Init, Device_CreateHeap, Device_CreatePlacedResource,
    Device_CreateDescriptorHeap, Device_CreateUnorderedAccessView,
    Heap_SetName, Resource_SetName, DescriptorHeap_SetName,
    GetCPUDescriptorHandleForHeapStart, Heap_Release, Resource_Release,
    issue, through, ret, bind, nullptr; simpl.

(** Every run of [Init] follows one of the paths of [InitRun]. *)
Lemma Init_run (dev : ID3D12Device) (this : ShaderCrashingAssertContext) :
  InitRun dev this (Init this {| pDevice := dev |}).
Proof.
  unfold_Init.
  destruct (CreateHeap dev heapDesc) as [hr1 p1] eqn:E1.
  destruct (SUCCEEDED hr1) eqn:S1; cbn; rewrite ?S1; cbn.
  2: { destruct p1; cbn; eapply (Run_heap_failed dev this); eauto. }
  destruct p1 as [h|]; cbn; [| eapply Run_heap_null; eauto ].
  destruct (CreatePlacedResource dev (Some h) 0 resDesc
              D3D12_RESOURCE_STATE_COMMON None) as [hr2 p2] eqn:E2.
  destruct (SUCCEEDED hr2) eqn:S2; cbn; rewrite ?S2; cbn.
  2: { destruct p2; cbn;
       eapply (Run_buffer_failed dev this hr1 h hr2); eauto. }
  destruct p2 as [r|]; cbn; [| eapply Run_buffer_null; eauto ].
  destruct (CreateDescriptorHeap dev descHeapDesc) as [hr3 p3] eqn:E3.
  destruct (SUCCEEDED hr3) eqn:S3; cbn; rewrite ?S3; cbn.
  2: { eapply (Run_descriptor_heap_failed dev this hr1 h hr2 r hr3); eauto. }
  destruct p3 as [d|]; cbn.
  - eapply Run_complete; eauto.
  - eapply Run_descriptor_heap_null; eauto.
Qed.

Lemma FAILED_not_SUCCEEDED (hr : HRESULT) : FAILED hr = negb (SUCCEEDED hr).
Proof.
  unfold FAILED, SUCCEEDED.
  destruct (Z.ltb_spec hr 0), (Z.leb_spec 0 hr); simpl; auto; lia.
Qed.

Lemma no_object_on_success (A : Type) (hr : HRESULT) :
  object_on_success (A := A) (hr, nullptr) -> SUCCEEDED hr = true -> False.
Proof.
  intros H S. apply (H S). reflexivity.
Qed.

Lemma failure_stores_null (A : Type) (hr : HRESULT) (p : option A) :
  null_on_failure (hr, p) -> SUCCEEDED hr = false -> p = nullptr.
Proof.
  intros H S. exact (H S).
Qed.

Lemma scripted_returns_objects heap buf dh :
  object_on_success heap -> object_on_success buf -> object_on_success dh ->
  returns_objects (scripted heap buf dh).
Proof.
  intros; repeat split; intros; assumption.
Qed.

Lemma scripted_nulls_on_failure heap buf dh :
  null_on_failure heap -> null_on_failure buf -> null_on_failure dh ->
  nulls_on_failure (scripted heap buf dh).
Proof.
  intros; repeat split; intros; assumption.
Qed.

Lemma created_object_ok (A : Type) (hr : HRESULT) (o : A) :
  object_on_success (hr, Some o).
Proof.
  intros _; discriminate.
Qed.

Lemma failed_null_ok (A : Type) (hr : HRESULT) :
  object_on_success (A := A) (hr, nullptr) <-> SUCCEEDED hr = false.
Proof.
  unfold object_on_success; simpl; split.
  - intros H. destruct (SUCCEEDED hr); auto. exfalso; now apply H.
  - intros H S; congruence.
Qed.

Lemma success_object_ok (A : Type) (hr : HRESULT) (o : A) :
  SUCCEEDED hr = true -> null_on_failure (hr, Some o).
Proof.
  intros S F; simpl in *; congruence.
Qed.

Lemma null_ok (A : Type) (hr : HRESULT) :
  null_on_failure (A := A) (hr, nullptr).
Proof.
  intros _; reflexivity.
Qed.

Lemma working_device_conformant : com_conformant working_device.
Proof.
  split.
  - apply scripted_returns_objects; apply created_object_ok.
  - apply scripted_nulls_on_failure; now apply success_object_ok.
Qed.

Lemma device_without_memory_conformant (e : HRESULT) :
  FAILED e = true -> com_conformant (device_without_memory e).
Proof.
  rewrite FAILED_not_SUCCEEDED, negb_true_iff; intros F; split.
  - apply scripted_returns_objects;
      [now apply failed_null_ok | apply created_object_ok ..].
  - apply scripted_nulls_on_failure;
      [apply null_ok | now apply success_object_ok ..].
Qed.

Lemma device_failing_buffer_conformant (e : HRESULT) :
  FAILED e = true -> com_conformant (device_failing_buffer e).
Proof.
  rewrite FAILED_not_SUCCEEDED, negb_true_iff; intros F; split.
  - apply scripted_returns_objects;
      [apply created_object_ok | now apply failed_null_ok | apply created_object_ok].
  - apply scripted_nulls_on_failure;
      [now apply success_object_ok | apply null_ok | now apply success_object_ok].
Qed.

Lemma device_failing_descriptor_heap_conformant (e : HRESULT) :
  FAILED e = true -> com_conformant (device_failing_descriptor_heap e).
Proof.
  rewrite FAILED_not_SUCCEEDED, negb_true_iff; intros F; split.
  - apply scripted_returns_objects;
      [apply created_object_ok .. | now apply failed_null_ok].
  - apply scripted_nulls_on_failure;
      [now apply success_object_ok .. | apply null_ok].
Qed.

(** Concrete runs. *)
Example Init_on_working_device :
  Init new_context {| pDevice := working_device |} =
  Returned (S_OK, {| m_pDescriptorHeap := Some dheap1 |})
    [CallCreateHeap heapDesc S_OK (Some heap1);
     CallSetName (ObjHeap heap1) "ShaderCrashingAssert Heap";
     CallCreatePlacedResource (Some heap1) 0 resDesc
       D3D12_RESOURCE_STATE_COMMON nullptr S_OK (Some buf1);
     CallSetName (ObjResource buf1) "ShaderCrashingAssert Buffer";
     CallCreateDescriptorHeap descHeapDesc S_OK (Some dheap1);
     CallSetName (ObjDescriptorHeap dheap1) "ShaderCrashingAssert Descriptor Heap";
     CallGetCPUDescriptorHandleForHeapStart dheap1;
     CallCreateUnorderedAccessView (Some buf1) nullptr uavDesc (HeapStart dheap1);
     CallRelease (ObjResource buf1);
     CallRelease (ObjHeap heap1)].
Proof. reflexivity. Qed.

Example Init_without_memory :
  Init new_context {| pDevice := device_without_memory E_OUTOFMEMORY |} =
  Returned (E_OUTOFMEMORY, new_context)
    [CallCreateHeap heapDesc E_OUTOFMEMORY nullptr].
Proof. reflexivity. Qed.

Example Init_buffer_refused :
  Init new_context {| pDevice := device_failing_buffer E_INVALIDARG |} =
  Returned (E_INVALIDARG, new_context)
    [CallCreateHeap heapDesc S_OK (Some heap1);
     CallSetName (ObjHeap heap1) "ShaderCrashingAssert Heap";
     CallCreatePlacedResource (Some heap1) 0 resDesc
       D3D12_RESOURCE_STATE_COMMON nullptr E_INVALIDARG nullptr;
     CallRelease (ObjHeap heap1)].
Proof. reflexivity. Qed.

Example Init_descriptor_heap_refused :
  Init new_context
    {| pDevice := device_failing_descriptor_heap DXGI_ERROR_DEVICE_REMOVED |} =
  Returned (DXGI_ERROR_DEVICE_REMOVED, {| m_pDescriptorHeap := nullptr |})
    [CallCreateHeap heapDesc S_OK (Some heap1);
     CallSetName (ObjHeap heap1) "ShaderCrashingAssert Heap";
     CallCreatePlacedResource (Some heap1) 0 resDesc
       D3D12_RESOURCE_STATE_COMMON nullptr S_OK (Some buf1);
     CallSetName (ObjResource buf1) "ShaderCrashingAssert Buffer";
     CallCreateDescriptorHeap descHeapDesc DXGI_ERROR_DEVICE_REMOVED nullptr;
     CallRelease (ObjResource buf1);
     CallRelease (ObjHeap heap1)].
Proof. reflexivity. Qed.

(** A device that breaks the convention (success without an object) makes
    [Init] call [SetName] through a null pointer. *)
Example Init_on_device_breaking_the_convention :
  Init new_context
    {| pDevice := scripted (S_OK, nullptr) (S_OK, Some buf1) (S_OK, Some dheap1) |} =
  NullDeref [CallCreateHeap heapDesc S_OK nullptr].
Proof. reflexivity. Qed.

(** A device that keeps the convention never sends [Init] down a path that
    ends in a null pointer. *)
Ltac conformant_paths dev this Hcom :=
  let R := fresh "R" in
  pose proof (Init_run dev this) as R;
  destruct Hcom as (Hc1 & Hc2 & Hc3);
  inversion R as
    [ hr1 p1 E1 S1 Eo | hr1 E1 S1 Eo | hr1 h hr2 p2 E1 S1 E2 S2 Eo
    | hr1 h hr2 E1 S1 E2 S2 Eo | hr1 h hr2 r hr3 p3 E1 S1 E2 S2 E3 S3 Eo
    | hr1 h hr2 r hr3 E1 S1 E2 S2 E3 S3 Eo
    | hr1 h hr2 r hr3 d E1 S1 E2 S2 E3 S3 Eo ];
  [ | exfalso; eapply no_object_on_success; [rewrite <- E1; apply Hc1 | exact S1]
    | | exfalso; eapply no_object_on_success; [rewrite <- E2; apply Hc2 | exact S2]
    | | exfalso; eapply no_object_on_success; [rewrite <- E3; apply Hc3 | exact S3]
    | ].

Ltac statuses :=
  rewrite ?FAILED_not_SUCCEEDED;
  repeat match goal with
         | H : SUCCEEDED ?x = _ |- context [SUCCEEDED ?x] => rewrite H
         end;
  cbn.

Lemma Init_returns (dev : ID3D12Device) (this : ShaderCrashingAssertContext) :
  returns_objects dev ->
  exists hr this' calls,
    Init this {| pDevice := dev |} = Returned (hr, this') calls.
Proof.
  intros Hcom. conformant_paths dev this Hcom; eauto.
Qed.

(** C9. [Init] never invokes a method through a null pointer.  On a device
    that hands out an object with every success code the run returns, and:
    each [SetName] is issued on an object whose creation succeeded; the view
    is created only after the three creation calls, none of which failed; the
    releases are exactly those of the non-null buffer and heap pointers, the
    buffer first, on every path. *)
Theorem Init_no_null_dereference
    (dev : ID3D12Device) (this : ShaderCrashingAssertContext) :
  returns_objects dev ->
  exists hr this' calls,
    Init this {| pDevice := dev |} = Returned (hr, this') calls
    /\ (forall o, In o (named calls) -> In o (created calls))
    /\ (In ViewCreation (attempted calls) ->
        first_failure calls = None
        /\ attempted calls =
           [HeapCreation; BufferCreation; DescriptorHeapCreation; ViewCreation])
    /\ released calls = rev (filter is_transient (stored calls)).
Proof.
  intros Hcom.
  conformant_paths dev this Hcom; do 3 eexists; (split; [reflexivity |]).
  - destruct p1; cbn; repeat split; intros; try tauto;
      cbn in *; intuition discriminate.
  - destruct p2; unfold created, named; cbn; statuses;
      repeat split; intros; try tauto; cbn in *; intuition discriminate.
  - destruct p3; unfold created, named; cbn; statuses;
      repeat split; intros; try tauto; cbn in *; intuition discriminate.
  - unfold created, named; cbn; statuses.
    repeat split; intros; try tauto.
Qed.

Lemma Init_no_null_dereference_witness :
  returns_objects working_device
  /\ exists hr this' calls,
       Init new_context {| pDevice := working_device |} =
       Returned (hr, this') calls
       /\ released calls = [ObjResource buf1; ObjHeap heap1].
Proof.
  split; [exact (proj1 working_device_conformant) |].
  destruct (Init_no_null_dereference working_device new_context
              (proj1 working_device_conformant))
    as (hr & this' & calls & E & _ & _ & R).
  exists hr, this', calls. split; [exact E |].
  rewrite Init_on_working_device in E. inversion E; subst. reflexivity.
Defined.

(** C3. [Init] is fail-fast.  When heap creation fails, [Init] returns its
    code and heap creation is the only creation step attempted.  In general the
    returned result is the code of the first creation step that failed, and no
    creation step is attempted after it; when none failed, the result is a
    success code. *)
Theorem Init_fail_fast
    (dev : ID3D12Device) (this : ShaderCrashingAssertContext) :
  returns_objects dev ->
  exists hr this' calls,
    Init this {| pDevice := dev |} = Returned (hr, this') calls
    /\ (FAILED (fst (CreateHeap dev heapDesc)) = true ->
        hr = fst (CreateHeap dev heapDesc)
        /\ attempted calls = [HeapCreation])
    /\ match first_failure calls with
       | Some (_, e, rest) => hr = e /\ attempted rest = []
       | None => SUCCEEDED hr = true
       end.
Proof.
  intros Hcom.
  conformant_paths dev this Hcom; do 3 eexists; (split; [reflexivity |]);
    rewrite E1; cbn [fst]; rewrite FAILED_not_SUCCEEDED, S1; cbn [negb].
  - split; [intros _; split; [reflexivity | now destruct p1] |].
    cbn. statuses. now destruct p1.
  - split; [discriminate |]. cbn. statuses. now destruct p2.
  - split; [discriminate |]. cbn. statuses. now destruct p3.
  - split; [discriminate |]. cbn. statuses. reflexivity.
Qed.

Lemma Init_fail_fast_witness :
  returns_objects (device_without_memory E_OUTOFMEMORY)
  /\ exists hr this' calls,
       Init new_context {| pDevice := device_without_memory E_OUTOFMEMORY |} =
       Returned (hr, this') calls
       /\ hr = E_OUTOFMEMORY
       /\ attempted calls = [HeapCreation].
Proof.
  assert (C : returns_objects (device_without_memory E_OUTOFMEMORY))
    by (apply device_without_memory_conformant; reflexivity).
  split; [exact C |].
  destruct (Init_fail_fast (device_without_memory E_OUTOFMEMORY) new_context C)
    as (hr & this' & calls & E & B & _).
  exists hr, this', calls. split; [exact E |]. exact (B eq_refl).
Defined.

(** Reading a returned run backwards: the path it took. *)
Ltac returned_paths dev this H :=
  let R := fresh "R" in
  pose proof (Init_run dev this) as R;
  rewrite H in R;
  inversion R as
    [ hr1 p1 E1 S1 | | hr1 h hr2 p2 E1 S1 E2 S2 |
    | hr1 h hr2 r hr3 p3 E1 S1 E2 S2 E3 S3 |
    | hr1 h hr2 r hr3 d E1 S1 E2 S2 E3 S3 ];
  subst; clear R.

Lemma handle_eqb_refl (a : D3D12_CPU_DESCRIPTOR_HANDLE) : handle_eqb a a = true.
Proof. apply Z.eqb_refl. Qed.

Lemma resource_eqb_refl (r : ID3D12Resource) : resource_eqb r r = true.
Proof. destruct r; apply N.eqb_refl. Qed.

(** C2. After an [Init] that returned a success code,
    [GetUAVCPUDescriptorHandle] returns the start of the descriptor heap that
    this call created with one slot; the view written in that slot is a view
    of the buffer placed by this call, of format R32 typeless, of buffer
    dimension, raw, starting at element 0 with [size / 4 = 8] elements of 4
    bytes, which is the whole of the 32 bytes of the buffer; and the buffer
    was placed with the flag that allows unordered access. *)
Theorem Init_success_describes_raw_view
    (dev : ID3D12Device) (this this' : ShaderCrashingAssertContext)
    (hr : HRESULT) (calls : list Call) :
  Init this {| pDevice := dev |} = Returned (hr, this') calls ->
  SUCCEEDED hr = true ->
  exists d buf view desc,
    m_pDescriptorHeap this' = Some d
    /\ GetUAVCPUDescriptorHandle this' =
       Returned (HeapStart d) [CallGetCPUDescriptorHandleForHeapStart d]
    /\ In (CallCreateDescriptorHeap descHeapDesc hr (Some d)) calls
    /\ NumDescriptors descHeapDesc = 1
    /\ view_at calls (HeapStart d) = Some (Some buf, view)
    /\ uav_Format view = DXGI_FORMAT_R32_TYPELESS
    /\ ViewDimension view = D3D12_UAV_DIMENSION_BUFFER
    /\ has_flag (Buffer_Flags view) D3D12_BUFFER_UAV_FLAG_RAW = true
    /\ Buffer_FirstElement view = 0
    /\ Buffer_NumElements view = size / sizeof_DWORD
    /\ Buffer_NumElements view = 8
    /\ placed calls buf = Some desc
    /\ Dimension desc = D3D12_RESOURCE_DIMENSION_BUFFER
    /\ Width desc = 32
    /\ Buffer_NumElements view * sizeof_DWORD = Width desc
    /\ has_flag (res_Flags desc) D3D12_RESOURCE_FLAG_ALLOW_UNORDERED_ACCESS = true.
Proof.
  intros H S.
  returned_paths dev this H; try congruence.
  exists d, r, uavDesc, resDesc.
  split; [reflexivity |].
  split; [reflexivity |].
  split; [cbn; tauto |].
  split; [reflexivity |].
  split; [cbn; now rewrite handle_eqb_refl |].
  split; [reflexivity |].
  split; [reflexivity |].
  split; [reflexivity |].
  split; [reflexivity |].
  split; [reflexivity |].
  split; [reflexivity |].
  split; [cbn; now rewrite S2, resource_eqb_refl |].
  repeat split.
Qed.

Lemma Init_success_describes_raw_view_witness :
  SUCCEEDED S_OK = true
  /\ exists d view desc,
       m_pDescriptorHeap {| m_pDescriptorHeap := Some dheap1 |} = Some d
       /\ GetUAVCPUDescriptorHandle {| m_pDescriptorHeap := Some dheap1 |} =
          Returned (HeapStart d) [CallGetCPUDescriptorHandleForHeapStart d]
       /\ Buffer_NumElements view = 8
       /\ Width desc = 32.
Proof.
  split; [reflexivity |].
  destruct (Init_success_describes_raw_view working_device new_context _ _ _
              Init_on_working_device eq_refl)
    as (d & buf & view & desc & Hd & G & _ & _ & _ & _ & _ & _ & _ & _ & N8
        & _ & _ & W & _).
  exists d, view, desc. repeat split; assumption.
Defined.

Lemma count_occ_single (o : Object) :
  count_occ Object_eq_dec [o] o = 1%nat.
Proof.
  simpl. destruct (Object_eq_dec o o); simpl; congruence.
Qed.

Lemma count_occ_pair (a b : Object) :
  a <> b ->
  count_occ Object_eq_dec [a; b] a = 1%nat
  /\ count_occ Object_eq_dec [a; b] b = 1%nat.
Proof.
  intros N. simpl.
  destruct (Object_eq_dec a a), (Object_eq_dec b b),
    (Object_eq_dec a b), (Object_eq_dec b a); simpl; try congruence; auto.
Qed.

(** The releases of [Init], for any context it is entered with.  On a device
    that keeps the COM convention every run returns, and on every path,
    failing or not: each heap or buffer that was created is released exactly
    once, nothing else is released, and the releases are the last calls
    before the return.  A failing run creates no descriptor heap, and leaves
    the context without one when the context held none at the call. *)
Lemma Init_releases_transients
    (dev : ID3D12Device) (this : ShaderCrashingAssertContext) :
  com_conformant dev ->
  exists hr this' calls,
    Init this {| pDevice := dev |} = Returned (hr, this') calls
    /\ (forall o, is_transient o = true -> In o (created calls) ->
        count_occ Object_eq_dec (released calls) o = 1%nat)
    /\ (forall o, In o (released calls) ->
        is_transient o = true /\ In o (created calls))
    /\ (exists before, calls = before ++ map CallRelease (released calls)
                       /\ released before = [])
    /\ (FAILED hr = true ->
        (forall d, ~ In (ObjDescriptorHeap d) (created calls))
        /\ (m_pDescriptorHeap this = nullptr ->
            m_pDescriptorHeap this' = nullptr)).
Proof.
  intros [Hcom Hnull]. destruct Hnull as (Hn1 & Hn2 & Hn3).
  conformant_paths dev this Hcom; do 3 eexists; (split; [reflexivity |]).
  - assert (p1 = nullptr) as ->
        by (eapply failure_stores_null; [rewrite <- E1; apply Hn1 | exact S1]).
    unfold created, released; cbn [flat_map created_by release_heap app].
    statuses.
    repeat split; try (intros; cbn in *; tauto).
    exists [CallCreateHeap heapDesc hr1 nullptr]. now split.
  - assert (p2 = nullptr) as ->
        by (eapply failure_stores_null; [rewrite <- E2; apply Hn2 | exact S2]).
    unfold created, released;
      cbn [flat_map created_by release_buf release_heap app map].
    statuses.
    split; [| split; [| split]].
    + intros o T [<- | []]. apply count_occ_single.
    + intros o [<- | []]. split; [reflexivity | now left].
    + eexists [_; _; _]. split; reflexivity.
    + intros _. split; [intros d [D | []]; discriminate | auto].
  - assert (p3 = nullptr) as ->
        by (eapply failure_stores_null; [rewrite <- E3; apply Hn3 | exact S3]).
    unfold created, released; cbn [flat_map created_by app map].
    statuses.
    split; [| split; [| split]].
    + intros o T [<- | [<- | []]];
        apply (count_occ_pair (ObjResource r) (ObjHeap h)); discriminate.
    + intros o [<- | [<- | []]]; (split; [reflexivity | cbn; tauto]).
    + eexists [_; _; _; _; _]. split; reflexivity.
    + intros _. split; [intros d [D | [D | []]]; discriminate | auto].
  - unfold created, released; cbn [flat_map created_by app map].
    statuses.
    split; [| split; [| split]].
    + intros o T [<- | [<- | [<- | []]]]; try discriminate;
        apply (count_occ_pair (ObjResource r) (ObjHeap h)); discriminate.
    + intros o [<- | [<- | []]]; (split; [reflexivity | cbn; tauto]).
    + eexists [_; _; _; _; _; _; _; _]. split; reflexivity.
    + discriminate.
Qed.

(** A context that an earlier call initialised keeps its descriptor heap
    when a later [Init] fails before the creation of a new one: the handle
    is reset nowhere. *)
Example failed_Init_keeps_earlier_descriptor_heap :
  Init {| m_pDescriptorHeap := Some dheap0 |}
    {| pDevice := device_without_memory E_OUTOFMEMORY |}
  = Returned (E_OUTOFMEMORY, {| m_pDescriptorHeap := Some dheap0 |})
      [CallCreateHeap heapDesc E_OUTOFMEMORY nullptr].
Proof. reflexivity. Qed.

(** C4. A context is initialised once, freshly constructed, on a device that
    keeps the COM convention.  Then [Init] returns, and on every exit path,
    success or failure at any step: each heap or buffer that was created is
    released exactly once, nothing else is released, and the releases are
    the last calls before [Init] returns, so that no transient object leaks.
    A failing initialisation creates no descriptor heap and leaves
    [m_pDescriptorHeap] null: the context holds no handle to bind, and
    [GetUAVCPUDescriptorHandle] has nothing to return. *)
Theorem Init_releases_transients_and_leaves_no_handle (dev : ID3D12Device) :
  com_conformant dev ->
  exists hr this' calls,
    Init new_context {| pDevice := dev |} = Returned (hr, this') calls
    /\ (forall o, is_transient o = true -> In o (created calls) ->
        count_occ Object_eq_dec (released calls) o = 1%nat)
    /\ (forall o, In o (released calls) ->
        is_transient o = true /\ In o (created calls))
    /\ (exists before, calls = before ++ map CallRelease (released calls)
                       /\ released before = [])
    /\ (FAILED hr = true ->
        (forall d, ~ In (ObjDescriptorHeap d) (created calls))
        /\ m_pDescriptorHeap this' = nullptr
        /\ GetUAVCPUDescriptorHandle this' = NullDeref []).
Proof.
  intros C.
  destruct (Init_releases_transients dev new_context C)
    as (hr & this' & calls & E & Once & Only & Last & Fail).
  exists hr, this', calls.
  split; [exact E |]. split; [exact Once |]. split; [exact Only |].
  split; [exact Last |].
  intros F. destruct (Fail F) as [NoHeap Null].
  specialize (Null eq_refl).
  split; [exact NoHeap |]. split; [exact Null |].
  unfold GetUAVCPUDescriptorHandle. rewrite Null. reflexivity.
Qed.

Lemma Init_releases_transients_and_leaves_no_handle_witness :
  com_conformant (device_failing_descriptor_heap DXGI_ERROR_DEVICE_REMOVED)
  /\ exists hr this' calls,
       Init new_context
         {| pDevice := device_failing_descriptor_heap DXGI_ERROR_DEVICE_REMOVED |}
       = Returned (hr, this') calls
       /\ released calls = [ObjResource buf1; ObjHeap heap1]
       /\ m_pDescriptorHeap this' = nullptr.
Proof.
  assert (C : com_conformant
                (device_failing_descriptor_heap DXGI_ERROR_DEVICE_REMOVED))
    by (apply device_failing_descriptor_heap_conformant; reflexivity).
  split; [exact C |].
  destruct (Init_releases_transients_and_leaves_no_handle
              (device_failing_descriptor_heap DXGI_ERROR_DEVICE_REMOVED) C)
    as (hr & this' & calls & E & _ & _ & _ & F).
  exists hr, this', calls. split; [exact E |].
  rewrite Init_descriptor_heap_refused in E.
  injection E as <- <- <-.
  split; [reflexivity | exact (proj1 (proj2 (F eq_refl)))].
Defined.

(** A run that attempts the view returns the success code of the descriptor
    heap creation. *)
Lemma view_creation_attempted_after_success
    (dev : ID3D12Device) (this this' : ShaderCrashingAssertContext)
    (hr : HRESULT) (calls : list Call) :
  Init this {| pDevice := dev |} = Returned (hr, this') calls ->
  In ViewCreation (attempted calls) ->
  SUCCEEDED hr = false ->
  False.
Proof.
  intros H V F.
  returned_paths dev this H.
  - destruct p1; cbn in V; intuition discriminate.
  - destruct p2; cbn in V; intuition discriminate.
  - cbn in V; intuition discriminate.
  - congruence.
Qed.

(** C6, as stated, fails for the fourth step: [CreateUnorderedAccessView]
    returns [void] and [Init] assigns nothing to [hr] there, so no run that
    attempts the view returns a failure code. *)
Lemma view_creation_surfaces_no_failure :
  ~ exists dev this hr this' calls,
      Init this {| pDevice := dev |} = Returned (hr, this') calls
      /\ In ViewCreation (attempted calls)
      /\ FAILED hr = true.
Proof.
  intros (dev & this & hr & this' & calls & H & V & F).
  rewrite FAILED_not_SUCCEEDED, negb_true_iff in F.
  exact (view_creation_attempted_after_success dev this this' hr calls H V F).
Qed.

(** C6, as the code has it.  Each of the three creation steps that answer a
    status (heap, buffer, descriptor heap) can surface any failure code
    through the result of [Init]: for each there is a device on which that
    step is the first to fail and [Init] returns its code.  The view creation
    answers no status: a run that attempts the view returns the code that
    the descriptor heap creation answered, as it is, and that is a success
    code. *)
Theorem creation_failures_surface
    (e : HRESULT) (this : ShaderCrashingAssertContext) :
  FAILED e = true ->
  (forall step,
      step <> ViewCreation ->
      exists dev this' calls rest,
        com_conformant dev
        /\ Init this {| pDevice := dev |} = Returned (e, this') calls
        /\ first_failure calls = Some (step, e, rest))
  /\ (forall dev hr this' calls,
        Init this {| pDevice := dev |} = Returned (hr, this') calls ->
        In ViewCreation (attempted calls) ->
        SUCCEEDED hr = true
        /\ hr = fst (CreateDescriptorHeap dev descHeapDesc)
        /\ exists d,
             In (CallCreateDescriptorHeap descHeapDesc hr (Some d)) calls).
Proof.
  intros F. split.
  - pose proof F as F'.
    rewrite FAILED_not_SUCCEEDED, negb_true_iff in F'.
    intros [] N; [| | | congruence].
    + exists (device_without_memory e). do 3 eexists.
      split; [now apply device_without_memory_conformant |].
      unfold_Init. repeat (rewrite F'; cbn). split; [reflexivity |].
      cbn. rewrite ?F. cbn. rewrite ?F. reflexivity.
    + exists (device_failing_buffer e). do 3 eexists.
      split; [now apply device_failing_buffer_conformant |].
      unfold_Init. repeat (rewrite F'; cbn). split; [reflexivity |].
      cbn. rewrite ?F. cbn. rewrite ?F. reflexivity.
    + exists (device_failing_descriptor_heap e). do 3 eexists.
      split; [now apply device_failing_descriptor_heap_conformant |].
      unfold_Init. repeat (rewrite F'; cbn). split; [reflexivity |].
      cbn. rewrite ?F. cbn. rewrite ?F. reflexivity.
  - intros dev hr this' calls H V.
    returned_paths dev this H.
    + exfalso. destruct p1; cbn in V; intuition discriminate.
    + exfalso. destruct p2; cbn in V; intuition discriminate.
    + exfalso. cbn in V; intuition discriminate.
    + split; [assumption |]. split; [now rewrite E3 |].
      exists d. cbn. tauto.
Qed.

Lemma creation_failures_surface_witness :
  FAILED E_OUTOFMEMORY = true
  /\ BufferCreation <> ViewCreation
  /\ (exists dev this' calls rest,
        com_conformant dev
        /\ Init new_context {| pDevice := dev |} =
           Returned (E_OUTOFMEMORY, this') calls
        /\ first_failure calls = Some (BufferCreation, E_OUTOFMEMORY, rest))
  /\ S_OK = fst (CreateDescriptorHeap working_device descHeapDesc).
Proof.
  split; [reflexivity |].
  split; [discriminate |].
  split.
  - apply (proj1 (creation_failures_surface E_OUTOFMEMORY new_context eq_refl)
             BufferCreation).
    discriminate.
  - refine (proj1 (proj2
      (proj2 (creation_failures_surface E_OUTOFMEMORY new_context eq_refl)
         working_device S_OK _ _ Init_on_working_device _))).
    cbn. tauto.
Defined.

(** C8. A call of [Init] on a context that already owns a descriptor heap,
    when it succeeds, stores in [m_pDescriptorHeap] the descriptor heap that
    this call created, and issues no [Release] on the one owned before.  The
    context has this single field and [Init] reads nothing from it: entered
    with any other context, the call returns the same result, issues the same
    calls and leaves the same context. *)
Theorem Init_again_overwrites_descriptor_heap
    (dev : ID3D12Device) (this this' : ShaderCrashingAssertContext)
    (old : ID3D12DescriptorHeap) (hr : HRESULT) (calls : list Call) :
  m_pDescriptorHeap this = Some old ->
  Init this {| pDevice := dev |} = Returned (hr, this') calls ->
  SUCCEEDED hr = true ->
  (exists d,
      In (CallCreateDescriptorHeap descHeapDesc hr (Some d)) calls
      /\ In (ObjDescriptorHeap d) (created calls)
      /\ m_pDescriptorHeap this' = Some d)
  /\ ~ In (ObjDescriptorHeap old) (released calls)
  /\ (forall d, ~ In (CallRelease (ObjDescriptorHeap d)) calls)
  /\ this' = {| m_pDescriptorHeap := m_pDescriptorHeap this' |}
  /\ (forall other : ShaderCrashingAssertContext,
        Init other {| pDevice := dev |} = Returned (hr, this') calls).
Proof.
  intros O H S.
  pose proof (Init_run dev this) as R. rewrite H in R.
  inversion R as
    [ hr1 p1 E1 S1 | | hr1 h hr2 p2 E1 S1 E2 S2 |
    | hr1 h hr2 r hr3 p3 E1 S1 E2 S2 E3 S3 |
    | hr1 h hr2 r hr3 d E1 S1 E2 S2 E3 S3 ];
    subst; try congruence.
  split; [| split; [| split; [| split]]].
  - exists d. unfold created; cbn. statuses. tauto.
  - cbn. intuition discriminate.
  - intros d' I. cbn in I.
    repeat (destruct I as [I | I]; [discriminate I |]). exact I.
  - reflexivity.
  - intros other. clear H R.
    unfold_Init. rewrite E1; cbn. rewrite S1; cbn.
    unfold nullptr in E2. rewrite E2; cbn. rewrite S2; cbn.
    rewrite E3; cbn. rewrite S3; cbn. reflexivity.
Qed.

Lemma Init_again_overwrites_descriptor_heap_witness :
  m_pDescriptorHeap {| m_pDescriptorHeap := Some dheap0 |} = Some dheap0
  /\ SUCCEEDED S_OK = true
  /\ exists calls,
       Init {| m_pDescriptorHeap := Some dheap0 |} {| pDevice := working_device |}
       = Returned (S_OK, {| m_pDescriptorHeap := Some dheap1 |}) calls
       /\ ~ In (ObjDescriptorHeap dheap0) (released calls).
Proof.
  split; [reflexivity |].
  split; [reflexivity |].
  eexists. split; [reflexivity |].
  exact (proj1 (proj2
    (Init_again_overwrites_descriptor_heap working_device
       {| m_pDescriptorHeap := Some dheap0 |} _ dheap0 _ _
       eq_refl eq_refl eq_refl))).
Defined.

(** Two calls in a row on one context: the descriptor heap of the first call
    is replaced and never released. *)
Example Init_twice :
  (let first := {| pDevice := scripted (S_OK, Some heap1) (S_OK, Some buf1)
                                (S_OK, Some dheap0) |} in
   '(_, this) <- Init new_context first ;;
   Init this {| pDevice := working_device |})
  = Returned (S_OK, {| m_pDescriptorHeap := Some dheap1 |})
      [CallCreateHeap heapDesc S_OK (Some heap1);
       CallSetName (ObjHeap heap1) "ShaderCrashingAssert Heap";
       CallCreatePlacedResource (Some heap1) 0 resDesc
         D3D12_RESOURCE_STATE_COMMON nullptr S_OK (Some buf1);
       CallSetName (ObjResource buf1) "ShaderCrashingAssert Buffer";
       CallCreateDescriptorHeap descHeapDesc S_OK (Some dheap0);
       CallSetName (ObjDescriptorHeap dheap0) "ShaderCrashingAssert Descriptor Heap";
       CallGetCPUDescriptorHandleForHeapStart dheap0;
       CallCreateUnorderedAccessView (Some buf1) nullptr uavDesc (HeapStart dheap0);
       CallRelease (ObjResource buf1);
       CallRelease (ObjHeap heap1);
       CallCreateHeap heapDesc S_OK (Some heap1);
       CallSetName (ObjHeap heap1) "ShaderCrashingAssert Heap";
       CallCreatePlacedResource (Some heap1) 0 resDesc
         D3D12_RESOURCE_STATE_COMMON nullptr S_OK (Some buf1);
       CallSetName (ObjResource buf1) "ShaderCrashingAssert Buffer";
       CallCreateDescriptorHeap descHeapDesc S_OK (Some dheap1);
       CallSetName (ObjDescriptorHeap dheap1) "ShaderCrashingAssert Descriptor Heap";
       CallGetCPUDescriptorHandleForHeapStart dheap1;
       CallCreateUnorderedAccessView (Some buf1) nullptr uavDesc (HeapStart dheap1);
       CallRelease (ObjResource buf1);
       CallRelease (ObjHeap heap1)].
Proof. reflexivity. Qed.

(** ** Properties of the HLSL side *)

Lemma inside_0 (b0 b1 b2 b3 : Z) (rest : RWByteAddressBuffer) :
  inside 0 (b0 :: b1 :: b2 :: b3 :: rest) = true.
Proof.
  unfold inside. apply andb_true_iff. split.
  - reflexivity.
  - apply Z.leb_le. cbn [List.length]. lia.
Qed.

Lemma inside_0_short (buf : RWByteAddressBuffer) :
  (List.length buf < 4)%nat -> inside 0 buf = false.
Proof.
  intros L. unfold inside. apply andb_false_iff. right.
  apply Z.leb_gt. lia.
Qed.

Lemma Store_0 (value b0 b1 b2 b3 : Z) (rest : RWByteAddressBuffer) :
  Store 0 value (b0 :: b1 :: b2 :: b3 :: rest) = bytes_of_uint value ++ rest.
Proof.
  unfold Store. rewrite inside_0. reflexivity.
Qed.

Lemma Store_0_short (value : Z) (buf : RWByteAddressBuffer) :
  (List.length buf < 4)%nat -> Store 0 value buf = buf.
Proof.
  intros L. unfold Store. now rewrite inside_0_short.
Qed.

(** A buffer has four bytes or more, or fewer. *)
Lemma buffer_cases (buf : RWByteAddressBuffer) :
  (exists b0 b1 b2 b3 rest, buf = b0 :: b1 :: b2 :: b3 :: rest)
  \/ (List.length buf < 4)%nat.
Proof.
  destruct buf as [| b0 [| b1 [| b2 [| b3 rest]]]]; cbn; try (right; lia).
  left. now exists b0, b1, b2, b3, rest.
Qed.

(** Storing the same value twice at offset 0 is storing it once. *)
Lemma Store_0_twice (value : Z) (buf : RWByteAddressBuffer) :
  Store 0 value (Store 0 value buf) = Store 0 value buf.
Proof.
  destruct (buffer_cases buf) as [(b0 & b1 & b2 & b3 & rest & ->) | L].
  - rewrite Store_0. unfold bytes_of_uint. cbn [app]. now rewrite Store_0.
  - rewrite (Store_0_short value buf L). now apply Store_0_short.
Qed.

Lemma Store_0_iter (value : Z) (n : nat) (buf : RWByteAddressBuffer) :
  Nat.iter (S n) (Store 0 value) buf = Store 0 value buf.
Proof.
  induction n as [| n IH].
  - reflexivity.
  - change (Nat.iter (S (S n)) (Store 0 value) buf)
      with (Store 0 value (Nat.iter (S n) (Store 0 value) buf)).
    rewrite IH. apply Store_0_twice.
Qed.

(** The first word of a buffer of four bytes or more reads as the sentinel
    after the store of the macro. *)
Lemma Load_after_sentinel_store (buf : RWByteAddressBuffer) :
  (4 <= List.length buf)%nat ->
  Load 0 (Store 0 0x23898f4a buf) = 0x23898f4a.
Proof.
  intros L.
  destruct (buffer_cases buf) as [(b0 & b1 & b2 & b3 & rest & ->) | S];
    [| lia].
  rewrite Store_0. unfold Load, bytes_of_uint. cbn [app].
  rewrite inside_0. reflexivity.
Qed.

Example sentinel_bytes : bytes_of_uint 0x23898f4a = [0x4a; 0x8f; 0x89; 0x23].
Proof. reflexivity. Qed.

Example first_word_of_zero_buffer : Load 0 zero_buffer = 0.
Proof. reflexivity. Qed.

Example store_in_zero_buffer :
  Store 0 0x23898f4a zero_buffer = [0x4a; 0x8f; 0x89; 0x23] ++ repeat 0 28%nat.
Proof. reflexivity. Qed.

(** What one execution of the macro does, for one round of fuel or more. *)
Lemma SHADER_CRASHING_ASSERT_run
    (Locals : Type) (fuel : nat) (expr : Expr Locals) (s : ShaderState Locals) :
  SHADER_CRASHING_ASSERT (S fuel) expr s =
  Some (if fst (expr s)
        then (snd (expr s), [EvalExpr true])
        else ({| ShaderCrashingAssertResource1 :=
                   Store 0 0x23898f4a
                     (ShaderCrashingAssertResource1 (snd (expr s)));
                 locals := locals (snd (expr s)) |},
              [EvalExpr false; ResourceStore 0 0x23898f4a])).
Proof.
  unfold SHADER_CRASHING_ASSERT, do_while, branch_if, lnot, eval, hbind, hret,
    ShaderCrashingAssertResource1_Store.
  destruct (expr s) as [[|] s1]; reflexivity.
Qed.

(** C1. One execution of [SHADER_CRASHING_ASSERT(expr)] ends, and it stores
    [0x23898f4a] at byte offset 0 of the resource if and only if [expr]
    evaluated to false.  When it did, that store is the only one, and the
    first word of a resource of four bytes or more then reads [0x23898f4a].
    When it evaluated to true, no store is performed and the state, hence the
    first word of the resource, is as the evaluation of [expr] left it. *)
Theorem assert_stores_iff_false
    (Locals : Type) (fuel : nat) (expr : Expr Locals) (s : ShaderState Locals) :
  exists s' effects,
    SHADER_CRASHING_ASSERT (S fuel) expr s = Some (s', effects)
    /\ (In (ResourceStore 0 0x23898f4a) effects <-> fst (expr s) = false)
    /\ (fst (expr s) = false ->
        stores effects = [(0, 0x23898f4a)]
        /\ ShaderCrashingAssertResource1 s' =
           Store 0 0x23898f4a (ShaderCrashingAssertResource1 (snd (expr s)))
        /\ locals s' = locals (snd (expr s))
        /\ ((4 <= List.length (ShaderCrashingAssertResource1 (snd (expr s))))%nat ->
            Load 0 (ShaderCrashingAssertResource1 s') = 0x23898f4a))
    /\ (fst (expr s) = true ->
        stores effects = []
        /\ s' = snd (expr s)
        /\ Load 0 (ShaderCrashingAssertResource1 s') =
           Load 0 (ShaderCrashingAssertResource1 (snd (expr s)))).
Proof.
  rewrite SHADER_CRASHING_ASSERT_run.
  destruct (fst (expr s)) eqn:B; do 2 eexists; (split; [reflexivity |]).
  - split; [| split]; try discriminate.
    + split; [| discriminate].
      intros [I | []]; discriminate.
    + intros _. repeat split.
  - split; [| split]; try discriminate.
    + split; [reflexivity |]. intros _. cbn. tauto.
    + intros _. cbn. repeat split.
      apply Load_after_sentinel_store.
Qed.

Lemma assert_stores_iff_false_witness :
  exists s' effects,
    SHADER_CRASHING_ASSERT 1 (fun s => (false, s))
      {| ShaderCrashingAssertResource1 := zero_buffer; locals := tt |}
    = Some (s', effects)
    /\ Load 0 (ShaderCrashingAssertResource1 s') = 0x23898f4a.
Proof.
  destruct (assert_stores_iff_false unit 0 (fun s => (false, s))
              {| ShaderCrashingAssertResource1 := zero_buffer; locals := tt |})
    as (s' & effects & R & _ & F & _).
  exists s', effects. split; [exact R |].
  apply (proj2 (proj2 (proj2 (F eq_refl)))).
  vm_compute. lia.
Defined.

(** Scenario C on one invocation: the condition holds and the first word
    stays zero. *)
Example assert_true_on_zero_buffer :
  SHADER_CRASHING_ASSERT 1 (fun s => (true, s))
    {| ShaderCrashingAssertResource1 := zero_buffer; locals := tt |}
  = Some ({| ShaderCrashingAssertResource1 := zero_buffer; locals := tt |},
          [EvalExpr true]).
Proof. reflexivity. Qed.

(** C10. One execution of [SHADER_CRASHING_ASSERT(expr)] evaluates [expr]
    exactly once, whatever its value: the evaluations of the run are the one
    of [expr] in the state the construct was entered in, and the variables
    are left as that single evaluation left them. *)
Theorem assert_evaluates_expression_once
    (Locals : Type) (fuel : nat) (expr : Expr Locals) (s : ShaderState Locals) :
  exists s' effects,
    SHADER_CRASHING_ASSERT (S fuel) expr s = Some (s', effects)
    /\ evaluations effects = [fst (expr s)]
    /\ List.length (evaluations effects) = 1%nat
    /\ hd_error effects = Some (EvalExpr (fst (expr s)))
    /\ locals s' = locals (snd (expr s)).
Proof.
  rewrite SHADER_CRASHING_ASSERT_run.
  destruct (fst (expr s)); do 2 eexists; (split; [reflexivity |]);
    repeat split.
Qed.

(** An expression with a side effect, [i++ < 3]: the variable is advanced
    once, with or without a store. *)
Example assert_with_increment_true :
  SHADER_CRASHING_ASSERT 1 (over_locals (fun i => (i <? 3, i + 1)))
    {| ShaderCrashingAssertResource1 := zero_buffer; locals := 2 |}
  = Some ({| ShaderCrashingAssertResource1 := zero_buffer; locals := 3 |},
          [EvalExpr true]).
Proof. reflexivity. Qed.

Example assert_with_increment_false :
  SHADER_CRASHING_ASSERT 1 (over_locals (fun i => (i <? 3, i + 1)))
    {| ShaderCrashingAssertResource1 := zero_buffer; locals := 3 |}
  = Some ({| ShaderCrashingAssertResource1 := Store 0 0x23898f4a zero_buffer;
             locals := 4 |},
          [EvalExpr false; ResourceStore 0 0x23898f4a]).
Proof. reflexivity. Qed.

Lemma Dispatch_cons (Locals : Type) (fuel : nat) (i : Invocation Locals)
    (rest : list (Invocation Locals)) (resource : RWByteAddressBuffer) :
  Dispatch fuel (i :: rest) resource =
  match SHADER_CRASHING_ASSERT fuel (over_locals (condition i))
          {| ShaderCrashingAssertResource1 := resource;
             locals := variables i |} with
  | Some (s', t) =>
      match Dispatch fuel rest (ShaderCrashingAssertResource1 s') with
      | Some (r, t') => Some (r, t ++ t')
      | None => None
      end
  | None => None
  end.
Proof. reflexivity. Qed.

Lemma over_locals_run (Locals : Type) (e : Locals -> bool * Locals)
    (resource : RWByteAddressBuffer) (l : Locals) :
  over_locals e {| ShaderCrashingAssertResource1 := resource; locals := l |} =
  (fst (e l),
   {| ShaderCrashingAssertResource1 := resource; locals := snd (e l) |}).
Proof.
  unfold over_locals; cbn. now destruct (e l).
Qed.

(** A dispatch ends; it stores once per failing invocation and evaluates one
    condition per invocation; the resource is left as one store of the
    sentinel leaves it when some invocation failed, and untouched when none
    did. *)
Lemma Dispatch_run (Locals : Type) (fuel : nat)
    (invocations : list (Invocation Locals)) (resource : RWByteAddressBuffer) :
  exists effects,
    Dispatch (S fuel) invocations resource =
    Some (if existsb fails invocations
          then Store 0 0x23898f4a resource
          else resource,
          effects)
    /\ stores effects =
       repeat (0, 0x23898f4a) (List.length (filter fails invocations))
    /\ List.length (evaluations effects) = List.length invocations.
Proof.
  revert resource.
  induction invocations as [| i rest IH]; intros resource.
  - exists []. repeat split.
  - rewrite Dispatch_cons, SHADER_CRASHING_ASSERT_run, over_locals_run.
    cbn [fst snd existsb filter]. unfold fails at 1 3.
    destruct (fst (condition i (variables i)));
      cbn [negb orb ShaderCrashingAssertResource1 locals].
    + destruct (IH resource) as (effects & -> & St & Ev).
      exists (EvalExpr true :: effects). cbn [app stores evaluations flat_map].
      fold (stores effects). fold (evaluations effects).
      cbn [List.length]. now rewrite Ev.
    + destruct (IH (Store 0 0x23898f4a resource)) as (effects & -> & St & Ev).
      exists (EvalExpr false :: ResourceStore 0 0x23898f4a :: effects).
      rewrite Store_0_twice.
      cbn [app stores evaluations flat_map].
      fold (stores effects). fold (evaluations effects).
      cbn [List.length repeat app]. rewrite St, Ev.
      now destruct (existsb fails rest).
Qed.

(** C7. Written [N >= 1] times, the sentinel leaves the resource as a single
    store leaves it: [N] stores in a row equal one store, and a store after a
    store changes nothing.  The same holds for a dispatch of any number of
    invocations, taken in any order, [N] of which fail: it performs [N]
    stores, all of [0x23898f4a] at offset 0, and ends with the resource of
    one store.  The first word of a resource of four bytes or more then reads
    [0x23898f4a]. *)
Theorem sentinel_writes_are_idempotent
    (Locals : Type) (N fuel : nat) (invocations : list (Invocation Locals))
    (resource : RWByteAddressBuffer) :
  (1 <= N)%nat ->
  List.length (filter fails invocations) = N ->
  Nat.iter N (Store 0 0x23898f4a) resource = Store 0 0x23898f4a resource
  /\ Store 0 0x23898f4a (Store 0 0x23898f4a resource) =
     Store 0 0x23898f4a resource
  /\ (exists effects,
        Dispatch (S fuel) invocations resource =
        Some (Store 0 0x23898f4a resource, effects)
        /\ stores effects = repeat (0, 0x23898f4a) N)
  /\ ((4 <= List.length resource)%nat ->
      Load 0 (Nat.iter N (Store 0 0x23898f4a) resource) = 0x23898f4a).
Proof.
  intros HN L.
  destruct N as [| n]; [lia |].
  rewrite Store_0_iter.
  split; [reflexivity |].
  split; [apply Store_0_twice |].
  split; [| apply Load_after_sentinel_store].
  destruct (Dispatch_run Locals fuel invocations resource)
    as (effects & D & St & _).
  assert (E : existsb fails invocations = true).
  { clear - L. induction invocations as [| i rest IH]; [discriminate L |].
    cbn in *. destruct (fails i); [reflexivity | now apply IH]. }
  rewrite E in D. rewrite L in St.
  exists effects. now split.
Qed.

Lemma sentinel_writes_are_idempotent_witness :
  (1 <= 2)%nat
  /\ Nat.iter 2 (Store 0 0x23898f4a) zero_buffer = Store 0 0x23898f4a zero_buffer
  /\ Load 0 (Nat.iter 2 (Store 0 0x23898f4a) zero_buffer) = 0x23898f4a.
Proof.
  split; [lia |].
  destruct (sentinel_writes_are_idempotent Z 2 0
              [ {| condition := fun i => (i <? 3, i + 1); variables := 5 |};
                {| condition := fun i => (i <? 3, i + 1); variables := 1 |};
                {| condition := fun i => (false, i); variables := 0 |} ]
              zero_buffer ltac:(lia) eq_refl)
    as (I & _ & _ & W).
  split; [exact I |].
  apply W. vm_compute. lia.
Defined.

(** Scenario D: one failing invocation among passing ones. *)
Example dispatch_with_one_failure :
  Dispatch 1
    [ {| condition := fun i => (i <? 3, i); variables := 0 |};
      {| condition := fun i => (i <? 3, i); variables := 7 |};
      {| condition := fun i => (i <? 3, i); variables := 1 |} ]
    zero_buffer
  = Some (Store 0 0x23898f4a zero_buffer,
          [EvalExpr true; EvalExpr false; ResourceStore 0 0x23898f4a;
           EvalExpr true]).
Proof. reflexivity. Qed.

(** ** Further properties of the host side *)

(** After [Init] on a freshly constructed context, on a device that keeps
    the COM convention, [GetUAVCPUDescriptorHandle] returns a handle exactly
    when [Init] returned a success code; after a failure it goes through the
    null [m_pDescriptorHeap], as it does before any [Init]. *)
Theorem accessor_safe_iff_Init_succeeded
    (dev : ID3D12Device) (this' : ShaderCrashingAssertContext)
    (hr : HRESULT) (calls : list Call) :
  com_conformant dev ->
  Init new_context {| pDevice := dev |} = Returned (hr, this') calls ->
  ((exists handle issued,
       GetUAVCPUDescriptorHandle this' = Returned handle issued)
   <-> SUCCEEDED hr = true)
  /\ (SUCCEEDED hr = false -> GetUAVCPUDescriptorHandle this' = NullDeref [])
  /\ GetUAVCPUDescriptorHandle new_context = NullDeref [].
Proof.
  intros [_ (Hn1 & Hn2 & Hn3)] H.
  returned_paths dev new_context H.
  - repeat split; try reflexivity; try congruence.
    intros (handle & issued & G). discriminate G.
  - repeat split; try reflexivity; try congruence.
    intros (handle & issued & G). discriminate G.
  - assert (p3 = nullptr) as ->
        by (eapply failure_stores_null; [rewrite <- E3; apply Hn3 | exact S3]).
    repeat split; try reflexivity; try congruence.
    intros (handle & issued & G). discriminate G.
  - repeat split; try reflexivity; try congruence.
    intros _. now exists (HeapStart d), [CallGetCPUDescriptorHandleForHeapStart d].
Qed.

Lemma accessor_safe_iff_Init_succeeded_witness :
  com_conformant (device_failing_buffer E_INVALIDARG)
  /\ Init new_context {| pDevice := device_failing_buffer E_INVALIDARG |}
     = Returned (E_INVALIDARG, new_context)
         [CallCreateHeap heapDesc S_OK (Some heap1);
          CallSetName (ObjHeap heap1) "ShaderCrashingAssert Heap";
          CallCreatePlacedResource (Some heap1) 0 resDesc
            D3D12_RESOURCE_STATE_COMMON nullptr E_INVALIDARG nullptr;
          CallRelease (ObjHeap heap1)]
  /\ GetUAVCPUDescriptorHandle new_context = NullDeref [].
Proof.
  assert (C : com_conformant (device_failing_buffer E_INVALIDARG))
    by (apply device_failing_buffer_conformant; reflexivity).
  split; [exact C |].
  split; [exact Init_buffer_refused |].
  exact (proj1 (proj2 (accessor_safe_iff_Init_succeeded
                         (device_failing_buffer E_INVALIDARG)
                         _ _ _ C Init_buffer_refused)) eq_refl).
Defined.

(** [Init] writes the context at one place only, the creation of the
    descriptor heap.  A run that does not get there leaves the context as it
    was; a run that does leaves in [m_pDescriptorHeap] the pointer that
    creation stored, so that on a device that stores null on failure a
    failing descriptor heap creation replaces a handle owned before by
    null. *)
Theorem Init_writes_context_at_descriptor_heap_only
    (dev : ID3D12Device) (this this' : ShaderCrashingAssertContext)
    (hr : HRESULT) (calls : list Call) :
  Init this {| pDevice := dev |} = Returned (hr, this') calls ->
  (~ In DescriptorHeapCreation (attempted calls) -> this' = this)
  /\ (In DescriptorHeapCreation (attempted calls) ->
      In (CallCreateDescriptorHeap descHeapDesc hr (m_pDescriptorHeap this'))
        calls
      /\ (nulls_on_failure dev -> SUCCEEDED hr = false ->
          m_pDescriptorHeap this' = nullptr)).
Proof.
  intros H.
  returned_paths dev this H.
  - split; [reflexivity |].
    destruct p1; cbn; intuition discriminate.
  - split; [reflexivity |].
    destruct p2; cbn; intuition discriminate.
  - split; [cbn; tauto |]. intros _. split; [cbn; tauto |].
    intros (_ & _ & Hn3) _. cbn.
    eapply failure_stores_null; [rewrite <- E3; apply Hn3 | exact S3].
  - split; [cbn; tauto |]. intros _. split; [cbn; tauto |].
    intros _ F. congruence.
Qed.

Lemma Init_writes_context_at_descriptor_heap_only_witness :
  nulls_on_failure (device_failing_descriptor_heap DXGI_ERROR_DEVICE_REMOVED)
  /\ exists calls,
       Init {| m_pDescriptorHeap := Some dheap0 |}
         {| pDevice := device_failing_descriptor_heap DXGI_ERROR_DEVICE_REMOVED |}
       = Returned (DXGI_ERROR_DEVICE_REMOVED, new_context) calls
       /\ In DescriptorHeapCreation (attempted calls)
       /\ m_pDescriptorHeap new_context = nullptr.
Proof.
  assert (C : nulls_on_failure
                (device_failing_descriptor_heap DXGI_ERROR_DEVICE_REMOVED))
    by (apply device_failing_descriptor_heap_conformant; reflexivity).
  split; [exact C |].
  eexists. split; [reflexivity |].
  assert (A : In DescriptorHeapCreation
                (attempted
                   [CallCreateHeap heapDesc S_OK (Some heap1);
                    CallSetName (ObjHeap heap1) "ShaderCrashingAssert Heap";
                    CallCreatePlacedResource (Some heap1) 0 resDesc
                      D3D12_RESOURCE_STATE_COMMON nullptr S_OK (Some buf1);
                    CallSetName (ObjResource buf1) "ShaderCrashingAssert Buffer";
                    CallCreateDescriptorHeap descHeapDesc
                      DXGI_ERROR_DEVICE_REMOVED nullptr;
                    CallRelease (ObjResource buf1);
                    CallRelease (ObjHeap heap1)]))
    by (cbn; tauto).
  split; [exact A |].
  exact (proj2 (proj2 (Init_writes_context_at_descriptor_heap_only
                         (device_failing_descriptor_heap DXGI_ERROR_DEVICE_REMOVED)
                         {| m_pDescriptorHeap := Some dheap0 |} _ _ _
                         eq_refl) A) C eq_refl).
Defined.

(** [Init] attempts the creation steps in the order heap, buffer, descriptor
    heap, view, each at most once and none after a gap: the steps attempted
    are a non-empty prefix of the four.  The result is the status answered by
    the last creation call, unchanged (a success code other than [S_OK] is
    returned as it is), and it is a success code exactly when all four steps
    were attempted. *)
Theorem Init_steps_in_order
    (dev : ID3D12Device) (this this' : ShaderCrashingAssertContext)
    (hr : HRESULT) (calls : list Call) :
  Init this {| pDevice := dev |} = Returned (hr, this') calls ->
  (exists n, (1 <= n <= 4)%nat /\ attempted calls = firstn n all_steps)
  /\ last_status calls = Some hr
  /\ (SUCCEEDED hr = true <-> attempted calls = all_steps).
Proof.
  intros H.
  returned_paths dev this H.
  - split; [exists 1%nat; split; [lia | now destruct p1] |].
    split; [now destruct p1 |].
    split; [congruence | destruct p1; discriminate].
  - split; [exists 2%nat; split; [lia | now destruct p2] |].
    split; [now destruct p2 |].
    split; [congruence | destruct p2; discriminate].
  - split; [exists 3%nat; split; [lia | reflexivity] |].
    split; [reflexivity |].
    split; [congruence | discriminate].
  - split; [exists 4%nat; split; [lia | reflexivity] |].
    split; [reflexivity |].
    split; [reflexivity | intros _; assumption].
Qed.

Lemma Init_steps_in_order_witness :
  last_status
    [CallCreateHeap heapDesc S_OK (Some heap1);
     CallSetName (ObjHeap heap1) "ShaderCrashingAssert Heap";
     CallCreatePlacedResource (Some heap1) 0 resDesc
       D3D12_RESOURCE_STATE_COMMON nullptr S_OK (Some buf1);
     CallSetName (ObjResource buf1) "ShaderCrashingAssert Buffer";
     CallCreateDescriptorHeap descHeapDesc 1 (Some dheap1);
     CallSetName (ObjDescriptorHeap dheap1) "ShaderCrashingAssert Descriptor Heap";
     CallGetCPUDescriptorHandleForHeapStart dheap1;
     CallCreateUnorderedAccessView (Some buf1) nullptr uavDesc (HeapStart dheap1);
     CallRelease (ObjResource buf1);
     CallRelease (ObjHeap heap1)] = Some 1.
Proof.
  exact (proj1 (proj2 (Init_steps_in_order
    (scripted (S_OK, Some heap1) (S_OK, Some buf1) (1, Some dheap1))
    new_context _ _ _ eq_refl))).
Defined.

(** The buffer is placed in the heap that the same call of [Init] created
    with a success code, at an offset and with a width that lie inside that
    heap, as a buffer in row-major layout, in the common state and without a
    clear value. *)
Theorem buffer_placed_inside_own_heap
    (dev : ID3D12Device) (this this' : ShaderCrashingAssertContext)
    (hr : HRESULT) (calls : list Call)
    (pHeap : option ID3D12Heap) (HeapOffset : Z) (pDesc : D3D12_RESOURCE_DESC)
    (InitialState : Z) (pOptimizedClearValue : option D3D12_CLEAR_VALUE)
    (status : HRESULT) (ppvResource : option ID3D12Resource) :
  Init this {| pDevice := dev |} = Returned (hr, this') calls ->
  In (CallCreatePlacedResource pHeap HeapOffset pDesc InitialState
        pOptimizedClearValue status ppvResource) calls ->
  exists heap_desc heap_status h,
    In (CallCreateHeap heap_desc heap_status (Some h)) calls
    /\ SUCCEEDED heap_status = true
    /\ pHeap = Some h
    /\ 0 <= HeapOffset
    /\ HeapOffset + Width pDesc <= SizeInBytes heap_desc
    /\ has_flag (heap_Flags heap_desc) D3D12_HEAP_FLAG_ALLOW_ONLY_BUFFERS = true
    /\ Dimension pDesc = D3D12_RESOURCE_DIMENSION_BUFFER
    /\ Layout pDesc = D3D12_TEXTURE_LAYOUT_ROW_MAJOR
    /\ InitialState = D3D12_RESOURCE_STATE_COMMON
    /\ pOptimizedClearValue = nullptr.
Proof.
  intros H I.
  returned_paths dev this H;
    try destruct p1; try destruct p2; cbn in I;
    repeat (destruct I as [I | I]; [try discriminate I |]);
    try contradiction;
    injection I as <- <- <- <- <- <- <-;
    exists heapDesc, hr1, h;
    (split; [cbn; tauto |]);
    repeat split; try assumption; unfold size; cbn; lia.
Qed.

Lemma buffer_placed_inside_own_heap_witness :
  exists heap_desc heap_status h,
    In (CallCreateHeap heap_desc heap_status (Some h))
      [CallCreateHeap heapDesc S_OK (Some heap1);
       CallSetName (ObjHeap heap1) "ShaderCrashingAssert Heap";
       CallCreatePlacedResource (Some heap1) 0 resDesc
         D3D12_RESOURCE_STATE_COMMON nullptr E_INVALIDARG nullptr;
       CallRelease (ObjHeap heap1)]
    /\ 0 + Width resDesc <= SizeInBytes heap_desc.
Proof.
  destruct (buffer_placed_inside_own_heap
              (device_failing_buffer E_INVALIDARG) new_context _ _ _
              (Some heap1) 0 resDesc D3D12_RESOURCE_STATE_COMMON nullptr
              E_INVALIDARG nullptr Init_buffer_refused
              (or_intror (or_intror (or_introl eq_refl))))
    as (heap_desc & heap_status & h & I & _ & _ & _ & W & _).
  exists heap_desc, heap_status, h. split; [exact I | exact W].
Defined.

(** Every object created in a run of [Init] is given its diagnostic name,
    once, and nothing else is named: the names given are those of the objects
    created, in the order of creation. *)
Theorem created_objects_are_named
    (dev : ID3D12Device) (this this' : ShaderCrashingAssertContext)
    (hr : HRESULT) (calls : list Call) :
  Init this {| pDevice := dev |} = Returned (hr, this') calls ->
  names calls = map (fun o => (o, diagnostic_name o)) (created calls).
Proof.
  intros H.
  returned_paths dev this H; try destruct p1; try destruct p2; try destruct p3;
    unfold created, names; cbn; statuses; reflexivity.
Qed.

Lemma created_objects_are_named_witness :
  names
    [CallCreateHeap heapDesc S_OK (Some heap1);
     CallSetName (ObjHeap heap1) "ShaderCrashingAssert Heap";
     CallCreatePlacedResource (Some heap1) 0 resDesc
       D3D12_RESOURCE_STATE_COMMON nullptr E_INVALIDARG nullptr;
     CallRelease (ObjHeap heap1)]
  = [(ObjHeap heap1, "ShaderCrashingAssert Heap"%string)].
Proof.
  exact (created_objects_are_named (device_failing_buffer E_INVALIDARG)
           new_context _ _ _ Init_buffer_refused).
Defined.

(** [Init] never works on an object it has released: after the release of
    the buffer and after the release of the heap, no call is invoked through
    them or is given them. *)
Theorem Init_no_use_after_release
    (dev : ID3D12Device) (this this' : ShaderCrashingAssertContext)
    (hr : HRESULT) (calls : list Call) :
  Init this {| pDevice := dev |} = Returned (hr, this') calls ->
  no_use_after_release calls = true.
Proof.
  intros H.
  returned_paths dev this H; try destruct p1; try destruct p2; reflexivity.
Qed.

Lemma Init_no_use_after_release_witness :
  no_use_after_release
    [CallCreateHeap heapDesc S_OK (Some heap1);
     CallSetName (ObjHeap heap1) "ShaderCrashingAssert Heap";
     CallCreatePlacedResource (Some heap1) 0 resDesc
       D3D12_RESOURCE_STATE_COMMON nullptr S_OK (Some buf1);
     CallSetName (ObjResource buf1) "ShaderCrashingAssert Buffer";
     CallCreateDescriptorHeap descHeapDesc S_OK (Some dheap1);
     CallSetName (ObjDescriptorHeap dheap1) "ShaderCrashingAssert Descriptor Heap";
     CallGetCPUDescriptorHandleForHeapStart dheap1;
     CallCreateUnorderedAccessView (Some buf1) nullptr uavDesc (HeapStart dheap1);
     CallRelease (ObjResource buf1);
     CallRelease (ObjHeap heap1)] = true.
Proof.
  exact (Init_no_use_after_release working_device new_context _ _ _
           Init_on_working_device).
Defined.

(** The checker does reject a use after a release. *)
Example use_after_release_is_seen :
  no_use_after_release
    [CallRelease (ObjResource buf1);
     CallCreateUnorderedAccessView (Some buf1) nullptr uavDesc (HeapStart dheap1)]
  = false.
Proof. reflexivity. Qed.

(** After a successful [Init] the objects created are a heap, a buffer and a
    descriptor heap; the buffer and the heap have been released, and the
    descriptor heap, which has not, is the one the context holds. *)
Theorem success_leaves_descriptor_heap_only
    (dev : ID3D12Device) (this this' : ShaderCrashingAssertContext)
    (hr : HRESULT) (calls : list Call) :
  Init this {| pDevice := dev |} = Returned (hr, this') calls ->
  SUCCEEDED hr = true ->
  exists h r d,
    created calls = [ObjHeap h; ObjResource r; ObjDescriptorHeap d]
    /\ released calls = [ObjResource r; ObjHeap h]
    /\ filter (fun o => negb (existsb (Object_eqb o) (released calls)))
         (created calls) = [ObjDescriptorHeap d]
    /\ m_pDescriptorHeap this' = Some d.
Proof.
  intros H S.
  returned_paths dev this H; try congruence.
  exists h, r, d. unfold created; cbn [flat_map created_by app]. statuses.
  split; [reflexivity |]. split; [reflexivity |]. split; [| reflexivity].
  cbn [released flat_map app filter existsb].
  assert (Eh : Object_eqb (ObjHeap h) (ObjHeap h) = true)
    by (unfold Object_eqb; destruct (Object_eq_dec (ObjHeap h) (ObjHeap h));
        congruence).
  assert (Er : Object_eqb (ObjResource r) (ObjResource r) = true)
    by (unfold Object_eqb;
        destruct (Object_eq_dec (ObjResource r) (ObjResource r)); congruence).
  cbn. rewrite Eh, Er. reflexivity.
Qed.

Lemma success_leaves_descriptor_heap_only_witness :
  SUCCEEDED S_OK = true
  /\ exists h r d,
       released
         [CallCreateHeap heapDesc S_OK (Some heap1);
          CallSetName (ObjHeap heap1) "ShaderCrashingAssert Heap";
          CallCreatePlacedResource (Some heap1) 0 resDesc
            D3D12_RESOURCE_STATE_COMMON nullptr S_OK (Some buf1);
          CallSetName (ObjResource buf1) "ShaderCrashingAssert Buffer";
          CallCreateDescriptorHeap descHeapDesc S_OK (Some dheap1);
          CallSetName (ObjDescriptorHeap dheap1)
            "ShaderCrashingAssert Descriptor Heap";
          CallGetCPUDescriptorHandleForHeapStart dheap1;
          CallCreateUnorderedAccessView (Some buf1) nullptr uavDesc
            (HeapStart dheap1);
          CallRelease (ObjResource buf1);
          CallRelease (ObjHeap heap1)]
       = [ObjResource r; ObjHeap h]
       /\ m_pDescriptorHeap {| m_pDescriptorHeap := Some dheap1 |} = Some d.
Proof.
  split; [reflexivity |].
  destruct (success_leaves_descriptor_heap_only working_device new_context
              _ _ _ Init_on_working_device eq_refl)
    as (h & r & d & _ & R & _ & M).
  exists h, r, d. split; [exact R | exact M].
Defined.

(** [Init] stops at a null pointer only behind a creation call that answered
    a success code and stored no object: that call is the last one issued.
    No guard of [Init] lets a null pointer through on a failure code. *)
Theorem null_dereference_only_after_success_without_object
    (dev : ID3D12Device) (this : ShaderCrashingAssertContext)
    (calls : list Call) :
  Init this {| pDevice := dev |} = NullDeref calls ->
  exists before c step status,
    calls = before ++ [c]
    /\ step_of c = Some (step, Some status)
    /\ SUCCEEDED status = true
    /\ stored_by c = None.
Proof.
  intros H.
  pose proof (Init_run dev this) as R. rewrite H in R.
  inversion R as
    [ | hr1 E1 S1 | | hr1 h hr2 E1 S1 E2 S2 |
    | hr1 h hr2 r hr3 E1 S1 E2 S2 E3 S3 | ]; subst.
  - exists [], (CallCreateHeap heapDesc hr1 nullptr), HeapCreation, hr1.
    repeat split; assumption.
  - eexists [_; _], _, BufferCreation, hr2.
    repeat split; assumption.
  - eexists [_; _; _; _], _, DescriptorHeapCreation, hr3.
    repeat split; assumption.
Qed.

Lemma null_dereference_only_after_success_without_object_witness :
  exists before c step status,
    [CallCreateHeap heapDesc S_OK nullptr] = before ++ [c]
    /\ step_of c = Some (step, Some status)
    /\ SUCCEEDED status = true.
Proof.
  destruct (null_dereference_only_after_success_without_object
              (scripted (S_OK, nullptr) (S_OK, Some buf1) (S_OK, Some dheap1))
              new_context _ Init_on_device_breaking_the_convention)
    as (before & c & step & status & E & St & Su & _).
  exists before, c, step, status. repeat split; assumption.
Defined.

(** ** Further properties of the HLSL side *)

Lemma Store_0_length (value : Z) (buf : RWByteAddressBuffer) :
  List.length (Store 0 value buf) = List.length buf.
Proof.
  destruct (buffer_cases buf) as [(b0 & b1 & b2 & b3 & rest & ->) | L].
  - now rewrite Store_0.
  - now rewrite Store_0_short.
Qed.

Lemma Store_0_skipn (value : Z) (buf : RWByteAddressBuffer) :
  skipn 4 (Store 0 value buf) = skipn 4 buf.
Proof.
  destruct (buffer_cases buf) as [(b0 & b1 & b2 & b3 & rest & ->) | L].
  - now rewrite Store_0.
  - now rewrite Store_0_short.
Qed.

(** A word that starts at byte 4 or later depends on the length of the
    buffer and on its bytes from the fifth on. *)
Lemma Load_beyond_first_word (address : Z) (b1 b2 : RWByteAddressBuffer) :
  List.length b1 = List.length b2 ->
  skipn 4 b1 = skipn 4 b2 ->
  4 <= address ->
  Load address b1 = Load address b2.
Proof.
  intros L S A. unfold Load, inside. rewrite L.
  replace (Z.to_nat address) with (Z.to_nat (address - 4) + 4)%nat by lia.
  now rewrite <- !skipn_skipn, S.
Qed.

(** One execution of the macro leaves the resource with the length it had
    and with every byte from the fifth on as it was: it writes the first
    word or nothing, whatever the expression evaluates to.  Every word
    loaded from byte 4 or later is unchanged, and so are the variables of the
    invocation once the expression is evaluated. *)
Theorem assert_touches_first_word_only
    (Locals : Type) (fuel : nat) (expr : Expr Locals) (s : ShaderState Locals) :
  exists s' effects,
    SHADER_CRASHING_ASSERT (S fuel) expr s = Some (s', effects)
    /\ List.length (ShaderCrashingAssertResource1 s') =
       List.length (ShaderCrashingAssertResource1 (snd (expr s)))
    /\ skipn 4 (ShaderCrashingAssertResource1 s') =
       skipn 4 (ShaderCrashingAssertResource1 (snd (expr s)))
    /\ (forall address, 4 <= address ->
        Load address (ShaderCrashingAssertResource1 s') =
        Load address (ShaderCrashingAssertResource1 (snd (expr s))))
    /\ locals s' = locals (snd (expr s)).
Proof.
  rewrite SHADER_CRASHING_ASSERT_run.
  destruct (fst (expr s)); do 2 eexists; (split; [reflexivity |]).
  - repeat split.
  - cbn [ShaderCrashingAssertResource1 locals].
    split; [apply Store_0_length |].
    split; [apply Store_0_skipn |].
    split; [| reflexivity].
    intros address A.
    apply Load_beyond_first_word;
      [apply Store_0_length | apply Store_0_skipn | exact A].
Qed.

Lemma assert_touches_first_word_only_witness :
  exists s' effects,
    SHADER_CRASHING_ASSERT 1 (fun s => (false, s))
      {| ShaderCrashingAssertResource1 := zero_buffer; locals := tt |}
    = Some (s', effects)
    /\ Load 4 (ShaderCrashingAssertResource1 s') = Load 4 zero_buffer.
Proof.
  destruct (assert_touches_first_word_only unit 0 (fun s => (false, s))
              {| ShaderCrashingAssertResource1 := zero_buffer; locals := tt |})
    as (s' & effects & R & _ & _ & L & _).
  exists s', effects. split; [exact R |].
  apply L. lia.
Defined.

(** Read after a dispatch, the first word tells whether an assertion failed:
    on a resource of four bytes or more whose first word was zero, it is
    non-zero exactly when some invocation failed, and it is then
    [0x23898f4a]; when none failed the resource is untouched. *)
Theorem first_word_tells_failure
    (Locals : Type) (fuel : nat) (invocations : list (Invocation Locals))
    (resource : RWByteAddressBuffer) :
  (4 <= List.length resource)%nat ->
  Load 0 resource = 0 ->
  exists resource' effects,
    Dispatch (S fuel) invocations resource = Some (resource', effects)
    /\ (Load 0 resource' <> 0 <-> existsb fails invocations = true)
    /\ (existsb fails invocations = true -> Load 0 resource' = 0x23898f4a)
    /\ (existsb fails invocations = false -> resource' = resource).
Proof.
  intros L Z0.
  destruct (Dispatch_run Locals fuel invocations resource)
    as (effects & D & _ & _).
  do 2 eexists. split; [exact D |].
  destruct (existsb fails invocations).
  - rewrite (Load_after_sentinel_store resource L).
    split; [split; [reflexivity | intros _; discriminate] |].
    split; [reflexivity | discriminate].
  - split; [split; [intros N; now elim N | discriminate] |].
    split; [discriminate | reflexivity].
Qed.

Lemma first_word_tells_failure_witness :
  (4 <= List.length zero_buffer)%nat
  /\ Load 0 zero_buffer = 0
  /\ exists resource' effects,
       Dispatch 1
         [ {| condition := fun i => (i <? 3, i); variables := 0 |};
           {| condition := fun i => (i <? 3, i); variables := 7 |} ]
         zero_buffer = Some (resource', effects)
       /\ Load 0 resource' = 0x23898f4a.
Proof.
  assert (L : (4 <= List.length zero_buffer)%nat) by (vm_compute; lia).
  split; [exact L |]. split; [reflexivity |].
  destruct (first_word_tells_failure Z 0
              [ {| condition := fun i => (i <? 3, i); variables := 0 |};
                {| condition := fun i => (i <? 3, i); variables := 7 |} ]
              zero_buffer L eq_refl)
    as (resource' & effects & D & _ & F & _).
  exists resource', effects. split; [exact D | exact (F eq_refl)].
Defined.

Lemma existsb_Permutation (A : Type) (f : A -> bool) (l l' : list A) :
  Permutation l l' -> existsb f l = existsb f l'.
Proof.
  induction 1 as [| x l l' P IH | x y l | l l' l'' P1 IH1 P2 IH2]; cbn.
  - reflexivity.
  - now rewrite IH.
  - destruct (f x), (f y); reflexivity.
  - now rewrite IH1.
Qed.

(** The resource a dispatch ends with does not depend on the order in which
    its invocations are taken: every writer writes the same word. *)
Theorem dispatch_order_is_immaterial
    (Locals : Type) (fuel : nat) (invocations invocations' : list (Invocation Locals))
    (resource : RWByteAddressBuffer) :
  Permutation invocations invocations' ->
  resource_after (S fuel) invocations resource =
  resource_after (S fuel) invocations' resource
  /\ resource_after (S fuel) invocations resource <> None.
Proof.
  intros P. unfold resource_after.
  destruct (Dispatch_run Locals fuel invocations resource)
    as (effects & -> & _ & _).
  destruct (Dispatch_run Locals fuel invocations' resource)
    as (effects' & -> & _ & _).
  cbn. rewrite (existsb_Permutation _ fails _ _ P).
  split; [reflexivity | discriminate].
Qed.

Lemma dispatch_order_is_immaterial_witness :
  Permutation
    [ {| condition := fun i : Z => (i <? 3, i); variables := 0 |};
      {| condition := fun i : Z => (i <? 3, i); variables := 7 |} ]
    [ {| condition := fun i : Z => (i <? 3, i); variables := 7 |};
      {| condition := fun i : Z => (i <? 3, i); variables := 0 |} ]
  /\ resource_after 1
       [ {| condition := fun i : Z => (i <? 3, i); variables := 0 |};
         {| condition := fun i : Z => (i <? 3, i); variables := 7 |} ]
       zero_buffer
     = resource_after 1
         [ {| condition := fun i : Z => (i <? 3, i); variables := 7 |};
           {| condition := fun i : Z => (i <? 3, i); variables := 0 |} ]
         zero_buffer.
Proof.
  split; [apply perm_swap |].
  exact (proj1 (dispatch_order_is_immaterial Z 0 _ _ zero_buffer
                  (perm_swap _ _ _))).
Defined.
